(** * cxxhttp: status lines, q-values and content negotiation

    A shallow embedding of [include/cxxhttp/negotiate.h] and
    [include/cxxhttp/http-status.h], together with the session accessors
    exercised by [src/test-case/session.cpp].

    Conventions of the embedding:
    - [std::string] is [string]; characters are compared by their code, as
      [std::char_traits<char>] does.
    - [std::set<std::string>] is the strictly ascending list of its elements
      (the order in which the set is iterated).
    - [std::set<qvalue>] is the list of its elements in iteration order.
    - [int] and [unsigned] values are [Z]; the qualities the parsing
      constructor produces lie between 0 and 1000, so their products stay
      far inside the range of [int].
    - a C++ exception is [None] in the [option] monad. *)

From Stdlib Require Import ZArith List Bool Ascii String Lia.
From Stdlib Require Import DecimalString.
Import ListNotations.

Open Scope Z_scope.
Open Scope string_scope.

(** ** The exception monad *)

Notation "x <- e ;; k" :=
  (match e with Some x => k | None => None end)
  (at level 61, e at next level, right associativity).

Fixpoint mapM {A B : Type} (f : A -> option B) (l : list A) : option (list B) :=
  match l with
  | [] => Some []
  | a :: l' => b <- f a ;; bs <- mapM f l' ;; Some (b :: bs)
  end.

(** ** Characters *)

(** [std::isspace] in the "C" locale: HT, LF, VT, FF, CR and space; no
    character above 127 is whitespace there. *)
Definition isspace (c : ascii) : bool :=
  let n := nat_of_ascii c in
  ((9 <=? n) && (n <=? 13))%nat || (n =? 32)%nat.

Definition isdigit (c : ascii) : bool :=
  let n := nat_of_ascii c in ((48 <=? n) && (n <=? 57))%nat.

(** The ECMAScript line terminators representable in a [char]. *)
Definition is_line_terminator (c : ascii) : bool :=
  let n := nat_of_ascii c in ((n =? 10) || (n =? 13))%nat.

Fixpoint string_forallb (p : ascii -> bool) (s : string) : bool :=
  match s with
  | "" => true
  | String c s' => p c && string_forallb p s'
  end.

Definition CR : ascii := ascii_of_nat 13.
Definition LF : ascii := ascii_of_nat 10.
Definition CRLF : string := String CR (String LF "").

(** ** [trim] *)

(** Index of [std::find_if_not(s.begin(), s.end(), isspace)]. *)
Fixpoint find_if_not_space (s : string) : nat :=
  match s with
  | "" => 0%nat
  | String c s' => if isspace c then S (find_if_not_space s') else 0%nat
  end.

(** Index of [std::find_if_not(s.rbegin(), s.rend(), isspace).base()]: one
    past the last character that is not whitespace, [0] when there is none. *)
Fixpoint rfind_if_not_space_base (s : string) : nat :=
  match s with
  | "" => 0%nat
  | String c s' =>
      match rfind_if_not_space_base s' with
      | O => if isspace c then 0%nat else 1%nat
      | S n => S (S n)
      end
  end.

(** [trim] builds [std::string(first, last)] from the two iterators.  On a
    non-empty string of whitespace only, [first] is [s.end()] and [last] is
    [s.begin()]: the range is reversed and the constructor raises
    [std::length_error]. *)
Definition trim (s : string) : option string :=
  let first := find_if_not_space s in
  let last := rfind_if_not_space_base s in
  if (first <=? last)%nat then Some (substring first (last - first) s)
  else None.

(** ** [split] *)

(** [std::getline(stream, item, sep)] on a stream whose unread part is [s]:
    the characters up to the first [sep] (which is consumed and dropped) or
    the end of the stream, and the unread rest. *)
Fixpoint getline_item (sep : ascii) (s : string) : string * string :=
  match s with
  | "" => ("", "")
  | String c s' =>
      if Ascii.eqb c sep then ("", s')
      else let (item, rest) := getline_item sep s' in (String c item, rest)
  end.

(** The extraction fails, and ends the loop, when nothing is left to read. *)
Definition getline (sep : ascii) (s : string) : option (string * string) :=
  match s with
  | "" => None
  | _ => Some (getline_item sep s)
  end.

(** The [while (std::getline(...))] loop of [split]; every turn consumes at
    least one character, so [fuel] above the length of the stream is never
    used up. *)
Fixpoint split_loop (fuel : nat) (sep : ascii) (stream : string)
    (rv : list string) : option (list string) :=
  match fuel with
  | O => None
  | S fuel' =>
      match getline sep stream with
      | None => Some rv
      | Some (item, rest) =>
          t <- trim item ;; split_loop fuel' sep rest (rv ++ [t])%list
      end
  end.

Definition split (text : string) (sep : ascii) : option (list string) :=
  split_loop (S (String.length text)) sep text [].

(** The raw items [std::getline] yields, by recursion on the text: a last
    item that is empty is not produced. *)
Fixpoint getline_items (sep : ascii) (s : string) : list string :=
  match s with
  | "" => []
  | String c s' =>
      if Ascii.eqb c sep then "" :: getline_items sep s'
      else match getline_items sep s' with
           | [] => [String c ""]
           | item :: items => String c item :: items
           end
  end.

(** ** Regular expressions

    The three [std::regex] patterns of the sources use literals, character
    classes, greedy quantifiers over one character, an optional group and
    capture groups.  [run] is the backtracking matcher of the ECMAScript
    grammar restricted to these forms: a greedy quantifier tries the longest
    repetition first and gives characters back one at a time. *)

Inductive regex : Type :=
| Eps                                             (* the empty pattern *)
| Chr (p : ascii -> bool)                         (* one character in a class *)
| Many (p : ascii -> bool) (lo : nat) (hi : option nat)       (* p{lo,hi} *)
| Cat (r1 r2 : regex)
| Opt (r : regex)                                 (* r? *)
| Group (i : nat) (r : regex).                    (* i-th capture group *)

(** Sub-matches, most recent first. *)
Definition smatch : Type := list (nat * string).

(** [matches[i]] as a string: empty when the group did not take part. *)
Fixpoint sub (m : smatch) (i : nat) : string :=
  match m with
  | [] => ""
  | (j, s) :: m' => if (i =? j)%nat then s else sub m' i
  end.

Definition dec_hi (hi : option nat) : option nat :=
  match hi with Some n => Some (Nat.pred n) | None => None end.

Definition hi_allows (hi : option nat) : bool :=
  match hi with Some O => false | _ => true end.

Fixpoint many {A : Type} (p : ascii -> bool) (lo : nat) (hi : option nat)
    (k : string -> option A) (s : string) : option A :=
  let stop := match lo with O => k s | S _ => None end in
  match s with
  | "" => stop
  | String c s' =>
      if p c && hi_allows hi then
        match many p (Nat.pred lo) (dec_hi hi) k s' with
        | Some r => Some r
        | None => stop
        end
      else stop
  end.

Fixpoint run (r : regex) (k : string -> smatch -> option smatch)
    (s : string) (m : smatch) : option smatch :=
  match r with
  | Eps => k s m
  | Chr p =>
      match s with
      | String c s' => if p c then k s' m else None
      | "" => None
      end
  | Many p lo hi => many p lo hi (fun s' => k s' m) s
  | Cat r1 r2 => run r1 (run r2 k) s m
  | Opt r1 =>
      match run r1 k s m with
      | Some m' => Some m'
      | None => k s m
      end
  | Group i r1 =>
      run r1 (fun s' m' =>
                k s' ((i, substring 0 (String.length s - String.length s') s) :: m'))
          s m
  end.

(** [std::regex_match]: the pattern has to cover the whole input. *)
Definition regex_match (s : string) (rx : regex) : option smatch :=
  run rx (fun s' m => match s' with "" => Some m | _ => None end) s [].

Definition lit (c : ascii) : regex := Chr (Ascii.eqb c).

(** [.] matches every character but a line terminator. *)
Definition dot : ascii -> bool := fun c => negb (is_line_terminator c).

Fixpoint word (w : string) : regex :=
  match w with
  | "" => Eps
  | String c w' => Cat (lit c) (word w')
  end.

Infix "+++" := Cat (at level 60, right associativity).

Definition in01 (c : ascii) : bool := Ascii.eqb c "0" || Ascii.eqb c "1".

(** ** Single-precision arithmetic of the q-value parser

    [std::stof] yields the binary32 number nearest to the decimal text and
    [f * 1000] is a binary32 product, both rounded to nearest, ties to even.
    A positive binary32 number is kept as [(m, e)] and stands for
    [m / 2^e], with a 24-bit significand [m]. *)

Definition round_half_even (n d : Z) : Z :=
  let q := n / d in
  let r := n mod d in
  if (2 * r <? d)%Z then q
  else if (d <? 2 * r)%Z then q + 1
  else if Z.even q then q else q + 1.

(** The least [e], counted up from [e], with [2^23 <= n * 2^e / d]. *)
Fixpoint binary32_exponent (fuel : nat) (n d e : Z) : Z :=
  match fuel with
  | O => e
  | S fuel' =>
      if (d * 2 ^ 23 <=? n * 2 ^ e)%Z then e
      else binary32_exponent fuel' n d (e + 1)
  end.

(** The binary32 number nearest to [n / d], for [0 <= n / d < 2^24] above
    the subnormal range. *)
Definition binary32_of_ratio (n d : Z) : Z * Z :=
  if (n =? 0)%Z then (0, 0)
  else
    let e := binary32_exponent 200 n d 0 in
    (round_half_even (n * 2 ^ e) d, e).

Fixpoint digits_value (s : string) (acc : Z) : Z :=
  match s with
  | "" => acc
  | String c s' => digits_value s' (10 * acc + (Z.of_nat (nat_of_ascii c) - 48))
  end.

(** Integer and fraction digits of a text [D] or [D.DDD]. *)
Fixpoint decimal_parts (s : string) : string * string :=
  match s with
  | "" => ("", "")
  | String c s' =>
      if Ascii.eqb c "." then ("", s')
      else let (i, f) := decimal_parts s' in (String c i, f)
  end.

(** [std::stof] on the texts the q-value pattern captures: digits with an
    optional fraction. *)
Definition stof (s : string) : Z * Z :=
  let (i, f) := decimal_parts s in
  binary32_of_ratio (digits_value (i ++ f) 0) (10 ^ Z.of_nat (String.length f)).

(** [std::floor(f * 1000)], converted to [int]. *)
Definition floor_times_1000 (f : Z * Z) : Z :=
  let (m, e) := f in
  let (m', e') := binary32_of_ratio (1000 * m) (2 ^ e) in
  m' / 2 ^ e'.

(** ** [std::set<std::string>] *)

(** [std::set::insert]: the element goes before the first greater one and is
    dropped when it is already there. *)
Fixpoint strset_insert (x : string) (l : list string) : list string :=
  match l with
  | [] => [x]
  | y :: l' =>
      match String.compare x y with
      | Lt => x :: y :: l'
      | Eq => y :: l'
      | Gt => y :: strset_insert x l'
      end
  end.

Definition strset_eqb (a b : list string) : bool :=
  if list_eq_dec string_dec a b then true else false.

(** ** [class qvalue] *)

Record qvalue : Type := mkQvalue {
  value : string;
  attributes : list string;
  extensions : list string;
  q : Z
}.

(** [q\s*=\s*([01](\.[0-9]{0,3})?)] *)
Definition rx : regex :=
  lit "q" +++ Many isspace 0 None +++ lit "=" +++ Many isspace 0 None +++
  Group 1 (Chr in01 +++ Opt (Group 2 (lit "." +++ Many isdigit 0 (Some 3%nat)))).

(** One turn of the loop over the segments in the constructor. *)
Definition qvalue_segment (v : qvalue) (s : string) : qvalue :=
  if value v =? "" then
    mkQvalue s (attributes v) (extensions v) (q v)
  else if (q v =? -1)%Z then
    match regex_match s rx with
    | Some matches =>
        let f := stof (sub matches 1) in
        mkQvalue (value v) (attributes v) (extensions v) (floor_times_1000 f)
    | None =>
        mkQvalue (value v) (strset_insert s (attributes v)) (extensions v) (q v)
    end
  else
    mkQvalue (value v) (attributes v) (strset_insert s (extensions v)) (q v).

(** The last two statements of the constructor. *)
Definition qvalue_finish (v : qvalue) : qvalue :=
  let q1 := if negb (value v =? "") && (q v =? -1)%Z then 1000 else q v in
  mkQvalue (value v) (attributes v) (extensions v) (Z.max (Z.min q1 1000) 0).

(** [qvalue::qvalue(const std::string &val)] *)
Definition qvalue_of_string (val : string) : option qvalue :=
  segments <- split val ";" ;;
  Some (qvalue_finish (fold_left qvalue_segment segments (mkQvalue "" [] [] (-1)))).

(** [qvalue::operator std::string] *)
Definition qvalue_string (v : qvalue) : string :=
  if value v =? "" then value v
  else fold_left (fun rv a => rv ++ ";" ++ a) (attributes v) (value v).

(** [qvalue::hasWildcard] *)
Definition hasWildcard (v : qvalue) : option bool :=
  a <- split (value v) "/" ;;
  Some (existsb (String.eqb "*") a).

(** The loop over the components in [operator==]: [false] as soon as two
    components differ and neither is the wildcard. *)
Fixpoint components_match (sa sb : list string) : bool :=
  match sa, sb with
  | a :: sa', b :: sb' =>
      if negb (a =? b) && negb (a =? "*") && negb (b =? "*") then false
      else components_match sa' sb'
  | _, _ => true
  end.

(** [qvalue::operator==] *)
Definition qvalue_eq (a b : qvalue) : option bool :=
  let valueMatch := value a =? value b in
  let attributesMatch := strset_eqb (attributes a) (attributes b) in
  if valueMatch && attributesMatch then Some true
  else
    aw <- hasWildcard a ;;
    bw <- hasWildcard b ;;
    if Bool.eqb aw bw then Some false
    else
      sa <- split (value a) "/" ;;
      sb <- split (value b) "/" ;;
      if (List.length sa =? List.length sb)%nat && negb (List.length sa =? 0)%nat
      then Some (components_match sa sb)
      else Some false.

(** The loop over the sub-tags in [operator<]: the first pair of sub-tags
    that differ decides, otherwise the shorter list is the lesser. *)
Fixpoint subtags_less (sa sb : list string) : bool :=
  match sa, sb with
  | a :: sa', b :: sb' => if negb (a =? b) then a <? b else subtags_less sa' sb'
  | [], _ :: _ => true
  | _, [] => false
  end.

(** [qvalue::operator<] *)
Definition qvalue_lt (a b : qvalue) : option bool :=
  if (q a <? q b)%Z then Some true
  else if (q b <? q a)%Z then Some false
  else if (value a =? value b)
          && (List.length (attributes a) <? List.length (attributes b))%nat
  then Some true
  else
    sa <- split (value a) "/" ;;
    sb <- split (value b) "/" ;;
    if negb (List.length sa =? List.length sb)%nat then
      Some (List.length sa <? List.length sb)%nat
    else
      let lexical := Some (qvalue_string a <? qvalue_string b) in
      match sa, sb with
      | [a0; a1], [b0; _] =>
          if a0 =? "*" then Some (negb (b0 =? "*"))
          else if b0 =? "*" then Some false
          else if a0 =? b0 then Some (a1 =? "*")
          else lexical
      | [_], [_] =>
          ta <- split (value a) "-" ;;
          tb <- split (value b) "-" ;;
          Some (subtags_less ta tb)
      | _, _ => lexical
      end.

(** ** [std::set<qvalue>]

    [std::set] is specified for a strict weak ordering.  The list keeps the
    elements in iteration order; [qvset_insert] puts the element before the
    first one it is less than and drops it at an element it is equivalent
    to, which is the set this specification describes whenever the
    comparisons behave as a strict weak ordering, and in any case on the
    empty set, where no comparison is made. *)

Fixpoint qvset_insert (x : qvalue) (l : list qvalue) : option (list qvalue) :=
  match l with
  | [] => Some [x]
  | y :: l' =>
      lt <- qvalue_lt x y ;;
      if lt then Some (x :: y :: l')
      else
        gt <- qvalue_lt y x ;;
        if gt then (r <- qvset_insert x l' ;; Some (y :: r))
        else Some (y :: l')
  end.

Fixpoint foldM {A B : Type} (f : B -> A -> option B) (l : list A) (b : B)
    : option B :=
  match l with
  | [] => Some b
  | a :: l' => b' <- f b a ;; foldM f l' b'
  end.

(** ** [negotiate] *)

(** [auto qv = v; qv.q = q;] *)
Definition with_q (v : qvalue) (q' : Z) : qvalue :=
  mkQvalue (value v) (attributes v) (extensions v) q'.

(** The loop over [rev] when the client gave no values. *)
Fixpoint first_without_wildcard (rev : list qvalue) : option string :=
  match rev with
  | [] => Some ""
  | v :: rev' =>
      w <- hasWildcard v ;;
      if negb w then Some (qvalue_string v) else first_without_wildcard rev'
  end.

(** The body of the two nested loops that intersect the sets. *)
Definition intersect_pair (a : qvalue) (is' : list qvalue) (b : qvalue)
    : option (list qvalue) :=
  e <- qvalue_eq a b ;;
  if e then
    let q' := Z.quot (q a * q b) 1000 in
    aw <- hasWildcard a ;;
    if aw then qvset_insert (with_q b q') is'
    else
      bw <- hasWildcard b ;;
      if bw then qvset_insert (with_q a q') is'
      else qvset_insert (with_q b q') is'
  else Some is'.

Definition intersect (theirs mine : list qvalue) : option (list qvalue) :=
  foldM (fun is' a => foldM (intersect_pair a) mine is') theirs [].

(** [negotiate(std::set<qvalue> theirs, std::set<qvalue> mine)] *)
Definition negotiate (theirs mine : list qvalue) : option string :=
  match mine, theirs with
  | [], _ => Some ""
  | _, [] => first_without_wildcard (rev mine)
  | _, _ =>
      is' <- intersect theirs mine ;;
      match rev is' with
      | [] => Some ""
      | v :: _ => Some (qvalue_string v)
      end
  end.

(** [std::set<qvalue>(first, last)] over a vector of strings: each string is
    converted by the parsing constructor and inserted. *)
Definition qvset_of_strings (l : list string) : option (list qvalue) :=
  foldM (fun set s => v <- qvalue_of_string s ;; qvset_insert v set) l [].

(** [negotiate(std::vector<std::string> theirs, std::vector<std::string> mine)] *)
Definition negotiate_vector (theirs mine : list string) : option string :=
  t <- qvset_of_strings theirs ;;
  m <- qvset_of_strings mine ;;
  negotiate t m.

(** [negotiate(const std::string &theirs, const std::string &mine)] *)
Definition negotiate_string (theirs mine : string) : option string :=
  t <- split theirs "," ;;
  m <- split mine "," ;;
  negotiate_vector t m.

(** ** Numbers and text *)

(** [stream << n] for an unsigned number: its decimal digits. *)
Definition decimal (n : Z) : string :=
  NilZero.string_of_uint (N.to_uint (Z.to_N n)).

Fixpoint skip_space (s : string) : string :=
  match s with
  | String c s' => if isspace c then skip_space s' else s
  | "" => ""
  end.

Fixpoint leading_digits (s : string) : string :=
  match s with
  | String c s' => if isdigit c then String c (leading_digits s') else ""
  | "" => ""
  end.

(** [std::stoi]: leading whitespace, an optional sign, then decimal digits;
    [std::invalid_argument] without a digit and [std::out_of_range] outside
    [int] are [None]. *)
Definition stoi (s : string) : option Z :=
  let s1 := skip_space s in
  let (negative, s2) :=
    match s1 with
    | String "-" s' => (true, s')
    | String "+" s' => (false, s')
    | _ => (false, s1)
    end in
  match leading_digits s2 with
  | "" => None
  | ds =>
      let n := digits_value ds 0 in
      let n' := if negative then - n else n in
      if (- 2 ^ 31 <=? n')%Z && (n' <? 2 ^ 31)%Z then Some n' else None
  end.

(** Conversion of an [int] to [unsigned]. *)
Definition to_unsigned (n : Z) : Z := n mod 2 ^ 32.

(** [c] prints as three digits, and [std::stoi] reads them back as [c]. *)
Definition three_digits_ok (c : Z) : bool :=
  match decimal c with
  | String d1 (String d2 (String d3 "")) =>
      isdigit d1 && isdigit d2 && isdigit d3
      && match stoi (decimal c) with
         | Some n => (to_unsigned n =? c)%Z
         | None => false
         end
  | _ => false
  end.

(** ** [class statusLine] *)

Record statusLine : Type := mkStatusLine {
  code : Z;
  protocol : string;
  description : string
}.

(** The pattern [stat] of the parsing constructor: the group [HTTP/1.[01]],
    where the character after [1] is the pattern [.], then [\s+], the group
    [[0-9]{3}], then [\s+], the group of a greedy [.] star, and a last
    [\s] star. *)
Definition stat : regex :=
  Group 1 (word "HTTP/1" +++ Chr dot +++ Chr in01) +++ Many isspace 1 None +++
  Group 2 (Many isdigit 3 (Some 3%nat)) +++ Many isspace 1 None +++
  Group 3 (Many dot 0 None) +++ Many isspace 0 None.

(** [statusLine::statusLine(void)] *)
Definition statusLine_default : statusLine := mkStatusLine 0 "" "".

(** [statusLine::statusLine(const std::string &line)] *)
Definition statusLine_of_string (line : string) : statusLine :=
  match regex_match line stat with
  | Some matches =>
      mkStatusLine
        (match stoi (sub matches 2) with
         | Some n => to_unsigned n
         | None => 500
         end)
        (sub matches 1) (sub matches 3)
  | None => statusLine_default
  end.

(** [statusLine::valid] *)
Definition valid (l : statusLine) : bool :=
  (100 <=? code l)%Z && (code l <? 600)%Z.

(** [statusLine::operator std::string] *)
Definition statusLine_string (l : statusLine) : string :=
  if negb (valid l) then "HTTP/1.1 500 Bad Status Line" ++ CRLF
  else protocol l ++ " " ++ decimal (code l) ++ " " ++ description l ++ CRLF.

(** The pattern the specification gives for status lines: as [stat], with
    an escaped dot in the first group, [HTTP/1\.[01]]. *)
Definition stat_specified : regex :=
  Group 1 (word "HTTP/1." +++ Chr in01) +++ Many isspace 1 None +++
  Group 2 (Many isdigit 3 (Some 3%nat)) +++ Many isspace 1 None +++
  Group 3 (Many dot 0 None) +++ Many isspace 0 None.

Section StatusTable.

(** [http::status], the map from status codes to descriptions declared in
    [cxxhttp/http-constants.h]; [status c] is the result of the lookup
    [http::status.find(c)]. *)
Variable status : Z -> option string.

(** [statusDescription] *)
Definition statusDescription (c : Z) : string :=
  match status c with
  | Some text => text
  | None => "Other Status"
  end.

(** [statusLine::statusLine(unsigned pStatus, const std::string &pProtocol)] *)
Definition statusLine_of_code (pStatus : Z) (pProtocol : string) : statusLine :=
  mkStatusLine pStatus pProtocol (statusDescription pStatus).

(** Modelled from the spec: [sessionData::generateReply] of
    [cxxhttp/http-session.h], which is not part of the sources at hand.
    The status line comes first.  An informational status (100-199) is
    followed by the blank line only.  Otherwise a [Connection: close] line
    is emitted for a status of 400 or more, then [Content-Length] with the
    byte length of the body, then the caller's header lines in insertion
    order, the blank line and the body. *)
Definition generateReply (statusCode : Z) (header : list (string * string))
    (body : string) : string :=
  let stline := statusLine_string (statusLine_of_code statusCode "HTTP/1.1") in
  if (100 <=? statusCode)%Z && (statusCode <? 200)%Z then stline ++ CRLF
  else
    stline
    ++ (if (400 <=? statusCode)%Z then "Connection: close" ++ CRLF else "")
    ++ "Content-Length: " ++ decimal (Z.of_nat (String.length body)) ++ CRLF
    ++ String.concat "" (map (fun h => fst h ++ ": " ++ snd h ++ CRLF) header)
    ++ CRLF ++ body.

(** The table of [testReply] in [src/test-case/session.cpp] and the loop
    that checks it. *)
Definition testReply_samples : list (Z * list (string * string) * string * string) :=
  [ (100, [], "", "HTTP/1.1 100 Continue" ++ CRLF ++ CRLF);
    (100, [], "ignored", "HTTP/1.1 100 Continue" ++ CRLF ++ CRLF);
    (200, [], "foo",
     "HTTP/1.1 200 OK" ++ CRLF ++ "Content-Length: 3" ++ CRLF ++ CRLF ++ "foo");
    (404, [], "sorry",
     "HTTP/1.1 404 Not Found" ++ CRLF ++ "Connection: close" ++ CRLF
     ++ "Content-Length: 5" ++ CRLF ++ CRLF ++ "sorry") ].

Definition testReply : bool :=
  forallb (fun tt => match tt with
                     | (st, hd, body, message) => generateReply st hd body =? message
                     end)
          testReply_samples.

End StatusTable.

(** The three entries of [http::status] that the test table of
    [src/test-case/session.cpp] shows. *)
Definition status_of_tests (c : Z) : option string :=
  if (c =? 100)%Z then Some "Continue"
  else if (c =? 200)%Z then Some "OK"
  else if (c =? 404)%Z then Some "Not Found"
  else None.

(** ** Session data *)

Inductive session_status : Type := stRequest | stContent | stShutdown.

(** The fields of [http::sessionData] that [src/test-case/session.cpp]
    assigns, and the staged input that [buffer()] reports.  The counters
    are [std::size_t] values. *)
Record sessionData : Type := mkSessionData {
  sstatus : session_status;
  requests : N;
  replies : N;
  contentLength : N;
  content : string;
  inboundRequest : string;
  header : list (string * string);
  input : string
}.

(** [http::sessionData v;] *)
Definition sessionData_default : sessionData :=
  mkSessionData stRequest 0 0 0 "" "" [] "".

(** Modelled from the spec: [sessionData::queries] of
    [cxxhttp/http-session.h], which is not part of the sources at hand: the
    sum of the requests received and the replies sent. *)
Definition queries (v : sessionData) : N := (requests v + replies v)%N.

(** Modelled from the spec: [sessionData::remainingBytes], the declared
    content length less the bytes of content read so far. *)
Definition remainingBytes (v : sessionData) : Z :=
  Z.of_N (contentLength v) - Z.of_nat (String.length (content v)).

(** Modelled from the spec: [sessionData::buffer], the bytes staged and not
    yet consumed. *)
Definition buffer (v : sessionData) : string := input v.

(** The table of [testBasicSession] in [src/test-case/session.cpp]:
    status, requests, replies, contentLength, content, and the expected
    queries, remainingBytes and buffer. *)
Definition testBasicSession_samples
    : list (session_status * N * N * N * string * N * Z * string) :=
  [ (stRequest, 1%N, 2%N, 500%N, "foo", 3%N, 497, "");
    (stContent, 1%N, 2%N, 500%N, "foo", 3%N, 497, "");
    (stShutdown, 1%N, 2%N, 500%N, "foo", 3%N, 497, "") ].

(** The loop of [testBasicSession], for an implementation [queries'] of the
    accessor under test. *)
Definition testBasicSession_with (queries' : sessionData -> N) : bool :=
  forallb
    (fun tt =>
       match tt with
       | (st, rq, rp, cl, ct, expQueries, expRemaining, expBuffer) =>
           let v0 := sessionData_default in
           let v := mkSessionData st rq rp cl ct (inboundRequest v0) (header v0)
                                  (input v0) in
           (queries' v =? expQueries)%N
           && (remainingBytes v =? expRemaining)%Z
           && (buffer v =? expBuffer)
       end)
    testBasicSession_samples.

Definition testBasicSession : bool := testBasicSession_with queries.

(** ** Auxiliary notions for the properties below *)

(** The string without its trailing whitespace. *)
Fixpoint rtrim (s : string) : string :=
  match s with
  | "" => ""
  | String c s' =>
      match rtrim s' with
      | "" => if isspace c then "" else String c ""
      | r => String c r
      end
  end.

(** Whether a character occurs in a string. *)
Fixpoint occurs (c : ascii) (s : string) : bool :=
  match s with
  | "" => false
  | String c' s' => Ascii.eqb c' c || occurs c s'
  end.

(** The items joined again, with the separator between them. *)
Fixpoint join (sep : ascii) (items : list string) : string :=
  match items with
  | [] => ""
  | [item] => item
  | item :: items' => item ++ String sep (join sep items')
  end.

(** A non-empty string of whitespace only. *)
Definition blank (s : string) : bool :=
  negb (s =? "") && string_forallb isspace s.

(** Whether the last character of a string is [c]. *)
Fixpoint last_is (c : ascii) (s : string) : bool :=
  match s with
  | "" => false
  | String a "" => Ascii.eqb a c
  | String _ s' => last_is c s'
  end.

(** The first string of a list that is not empty, the empty string when
    there is none. *)
Fixpoint first_nonempty (l : list string) : string :=
  match l with
  | [] => ""
  | s :: l' => if s =? "" then first_nonempty l' else s
  end.

(** Whether each string of a list is less than the next one. *)
Fixpoint ascending (l : list string) : bool :=
  match l with
  | a :: (b :: _) as l' => (a <? b) && ascending l'
  | _ => true
  end.

(** The text [D.DDD] of [n] thousandths, for [n] below 10000. *)
Definition thousandths (n : Z) : string :=
  decimal (n / 1000) ++ "." ++ decimal (n / 100 mod 10)
  ++ decimal (n / 10 mod 10) ++ decimal (n mod 10).

(** The thousandths below 2000 whose single-precision product with 1000
    falls below the whole number. *)
Definition inexact_thousandths : list Z :=
  [251; 253; 502; 506; 511; 1004; 1009; 1012; 1017; 1022].

Definition quality_of_thousandths (n : Z) : Z :=
  Z.min 1000 (if existsb (Z.eqb n) inexact_thousandths then n - 1 else n).

Definition thousandths_ok (n : Z) : bool :=
  match qvalue_of_string ("x;q=" ++ thousandths n) with
  | Some v =>
      (value v =? "x") && strset_eqb (attributes v) []
      && strset_eqb (extensions v) [] && (q v =? quality_of_thousandths n)%Z
  | None => false
  end.

(** A q-value shaped like a language tag: its value has a single component
    when split at [/], and [tags] are its sub-tags. *)
Definition tag_shaped (a : qvalue) (tags : list string) : Prop :=
  (exists x, split (value a) "/" = Some [x])
  /\ split (value a) "-" = Some tags.


(** The number a decimal digit stands for. *)
Definition digit_value (d : ascii) : Z := Z.of_nat (nat_of_ascii d) - 48.

(** * Properties *)

(** ** [trim] and [split] on examples *)

Example trim_inner_space : trim "  a b  " = Some "a b".
Proof. reflexivity. Qed.

Example trim_blank_raises : trim " " = None.
Proof. reflexivity. Qed.

Example split_segments : split "a; b;;c;" ";" = Some ["a"; "b"; ""; "c"].
Proof. reflexivity. Qed.

Example split_empty : split "" "," = Some [].
Proof. reflexivity. Qed.

(** ** The loop of [split] never runs out of fuel *)

Lemma getline_item_items (sep : ascii) (s : string) :
  s <> "" ->
  getline_items sep s
    = fst (getline_item sep s) :: getline_items sep (snd (getline_item sep s))
  /\ (String.length (snd (getline_item sep s)) < String.length s)%nat.
Proof.
  induction s as [|c s' IH]; intros Hne; [congruence|].
  simpl. destruct (Ascii.eqb c sep).
  - simpl. split; [reflexivity | lia].
  - destruct s' as [|c' s''].
    + simpl. split; [reflexivity | lia].
    + destruct IH as [IH1 IH2]; [discriminate|].
      destruct (getline_item sep (String c' s'')) as [item rest] eqn:E.
      simpl in IH1, IH2 |- *. rewrite IH1. simpl. split; [reflexivity | lia].
Qed.

Lemma split_loop_items (sep : ascii) (fuel : nat) :
  forall (s : string) (rv : list string),
    (String.length s < fuel)%nat ->
    split_loop fuel sep s rv
    = (ts <- mapM trim (getline_items sep s) ;; Some (rv ++ ts)%list).
Proof.
  induction fuel as [|fuel IH]; intros s rv Hlen; [lia|].
  destruct s as [|c s'].
  - simpl. now rewrite app_nil_r.
  - destruct (getline_item_items sep (String c s')) as [Hitems Hshort];
      [discriminate|].
    cbn [split_loop getline]. rewrite Hitems.
    destruct (getline_item sep (String c s')) as [item rest].
    cbn [fst snd mapM] in *.
    destruct (trim item) as [t|]; [|reflexivity].
    rewrite IH by (simpl in Hlen, Hshort; lia).
    destruct (mapM trim (getline_items sep rest)) as [ts|]; [|reflexivity].
    now rewrite <- app_assoc.
Qed.

(** [split] trims the items of [std::getline], and raises only when [trim]
    does. *)
Lemma split_items (s : string) (sep : ascii) :
  split s sep = mapM trim (getline_items sep s).
Proof.
  unfold split. rewrite split_loop_items by lia.
  now destruct (mapM trim (getline_items sep s)).
Qed.

(** ** The parsing constructor on examples *)

Example qvalue_full_form :
  qvalue_of_string "text/html;level=1; q=0.5;ext"
  = Some (mkQvalue "text/html" ["level=1"] ["ext"] 500).
Proof. reflexivity. Qed.

Example qvalue_single_precision :
  qvalue_of_string "a;q=0.251" = Some (mkQvalue "a" [] [] 250).
Proof. reflexivity. Qed.

(** ** Negotiation *)

Example negotiate_wildcard_client :
  negotiate_vector ["*/*"] ["text/html"] = Some "text/html".
Proof. reflexivity. Qed.

Example negotiate_server_quality :
  negotiate_vector ["text/*"] ["text/html"; "text/plain;q=0.5"] = Some "text/html".
Proof. reflexivity. Qed.

(** C1: [negotiate] is documented never to return a value that has a
    wildcard.  On the client set [{"*/*"}] and the server set [{"*/*"}] the
    two values are identical, so [operator==] reports a match before it
    looks at wildcards, and the wildcarded value [*/*] is returned. *)
Theorem negotiate_returns_wildcard :
  exists v : qvalue,
    qvalue_of_string "*/*" = Some v
    /\ hasWildcard v = Some true
    /\ qvalue_eq v v = Some true
    /\ negotiate [v] [v] = Some "*/*"
    /\ negotiate_vector ["*/*"] ["*/*"] = Some "*/*".
Proof.
  eexists. split; [reflexivity|]. repeat split; reflexivity.
Qed.

(** C2, as stated, fails: the negotiation of [{"en-US"}] against [{"en"}]
    does not return ["en"]. *)
Lemma negotiate_language_prefix_not_en :
  negotiate_vector ["en-US"] ["en"] <> Some "en".
Proof. vm_compute. discriminate. Qed.

(** C2, amended: [operator==] has no prefix relation on language tags;
    [en-US] and [en] do not match and the negotiation of [{"en-US"}]
    against [{"en"}] returns the empty string. *)
Theorem negotiate_language_prefix_no_match :
  (exists a b : qvalue,
      qvalue_of_string "en-US" = Some a /\ qvalue_of_string "en" = Some b
      /\ qvalue_eq a b = Some false)
  /\ negotiate_vector ["en-US"] ["en"] = Some "".
Proof.
  split; [|reflexivity].
  eexists. eexists. split; [reflexivity|]. split; reflexivity.
Qed.

(** C3, as stated, fails: with no client values and the server set
    [{"text/html;q=1"}] the result is not the empty string. *)
Lemma negotiate_no_client_values_not_empty :
  negotiate_vector [] ["text/html;q=1"] <> Some "".
Proof. vm_compute. discriminate. Qed.

(** C3, amended: with an empty client set and the server set
    [{"text/html;q=1"}], [negotiate] returns the server's own value,
    ["text/html"]. *)
Theorem negotiate_no_client_values :
  negotiate_vector [] ["text/html;q=1"] = Some "text/html".
Proof. reflexivity. Qed.

(** ** The ordering of q-values *)

(** X12: quality is the primary key of [operator<]: a q-value of lower
    quality is less than one of higher quality and not the other way round,
    and the comparison of two q-values of different quality never raises. *)
Lemma qvalue_lt_quality (a b : qvalue) :
  (q a < q b -> qvalue_lt a b = Some true)
  /\ (q b < q a -> qvalue_lt a b = Some false).
Proof.
  unfold qvalue_lt. split; intros H.
  - now rewrite (proj2 (Z.ltb_lt _ _) H).
  - rewrite (proj2 (Z.ltb_ge _ _)) by lia. now rewrite (proj2 (Z.ltb_lt _ _) H).
Qed.

(** C4: [operator<] is not a strict order.  [text/*] is less than itself;
    [text/*;a;b] and [text/*;a] are each less than the other; and the
    distinct values [text/html] and [text/plain] are not ordered either
    way, so that a set built from the two keeps only the first. *)
Theorem qvalue_lt_not_strict :
  (exists v, qvalue_of_string "text/*" = Some v /\ qvalue_lt v v = Some true)
  /\ (exists a b,
         qvalue_of_string "text/*;a;b" = Some a
         /\ qvalue_of_string "text/*;a" = Some b
         /\ qvalue_lt a b = Some true /\ qvalue_lt b a = Some true)
  /\ (exists a b,
         qvalue_of_string "text/html" = Some a
         /\ qvalue_of_string "text/plain" = Some b
         /\ a <> b
         /\ qvalue_lt a b = Some false /\ qvalue_lt b a = Some false
         /\ qvset_of_strings ["text/html"; "text/plain"] = Some [a]).
Proof.
  split; [|split].
  - eexists. split; reflexivity.
  - eexists. eexists. split; [reflexivity|]. repeat split; reflexivity.
  - eexists. eexists. split; [reflexivity|]. split; [reflexivity|].
    split; [discriminate|]. repeat split; reflexivity.
Qed.

(** The set of server values loses [text/plain], and the negotiation of
    [{"text/plain"}] against [{"text/html", "text/plain"}] finds nothing. *)
Example negotiate_equal_quality_siblings :
  negotiate_vector ["text/plain"] ["text/html"; "text/plain"] = Some "".
Proof. reflexivity. Qed.

(** ** The default quality *)

Lemma fold_segments_without_q (segments : list string) :
  forall v : qvalue,
    q v = -1 ->
    Forall (fun s => regex_match s rx = None) segments ->
    q (fold_left qvalue_segment segments v) = -1.
Proof.
  induction segments as [|s segments IH]; intros v Hq Hall; [exact Hq|].
  inversion Hall as [|s' l' Hs Hrest]; subst.
  simpl. apply IH; [|exact Hrest].
  unfold qvalue_segment. destruct (value v =? ""); [exact Hq|].
  rewrite Hs. replace (q v =? -1)%Z with true by (now rewrite Hq).
  exact Hq.
Qed.

(** A segment of whitespace only makes [trim], and with it the
    constructor, raise. *)
Example qvalue_blank_segment_raises : qvalue_of_string "a; ;b" = None.
Proof. reflexivity. Qed.

(** C5, as stated, fails: the empty string has no segment at all, and its
    quality is 0. *)
Lemma qvalue_quality_of_empty_string :
  exists v : qvalue,
    split "" ";" = Some []
    /\ qvalue_of_string "" = Some v
    /\ q v = 0 /\ q v <> 1000.
Proof.
  eexists. split; [reflexivity|]. split; [reflexivity|].
  split; [reflexivity | discriminate].
Qed.

(** C5, amended: when [val] splits into segments none of which matches the
    [q=] pattern, the constructor succeeds and the quality is 1000 if the
    parsed value is not empty, and 0 if it is empty. *)
Theorem qvalue_quality_default (val : string) (segments : list string) :
  split val ";" = Some segments ->
  Forall (fun s => regex_match s rx = None) segments ->
  exists v : qvalue,
    qvalue_of_string val = Some v
    /\ q v = if value v =? "" then 0 else 1000.
Proof.
  intros Hsplit Hall. unfold qvalue_of_string. rewrite Hsplit.
  eexists. split; [reflexivity|].
  pose proof (fold_segments_without_q segments (mkQvalue "" [] [] (-1))
                eq_refl Hall) as Hq.
  unfold qvalue_finish. cbn [q value]. rewrite Hq.
  destruct (value (fold_left qvalue_segment segments (mkQvalue "" [] [] (-1))) =? "");
    reflexivity.
Qed.

Lemma qvalue_quality_default_witness :
  split "text/html;level=1" ";" = Some ["text/html"; "level=1"]
  /\ Forall (fun s => regex_match s rx = None) ["text/html"; "level=1"]
  /\ exists v : qvalue,
      qvalue_of_string "text/html;level=1" = Some v
      /\ q v = if value v =? "" then 0 else 1000.
Proof.
  assert (Hsplit : split "text/html;level=1" ";" = Some ["text/html"; "level=1"])
    by reflexivity.
  assert (Hall : Forall (fun s => regex_match s rx = None) ["text/html"; "level=1"])
    by (repeat (constructor; try reflexivity)).
  split; [exact Hsplit|]. split; [exact Hall|].
  exact (qvalue_quality_default "text/html;level=1" ["text/html"; "level=1"]
           Hsplit Hall).
Defined.

(** ** Symmetry of the match relation *)

Lemma strset_eqb_sym (a b : list string) : strset_eqb a b = strset_eqb b a.
Proof.
  unfold strset_eqb.
  destruct (list_eq_dec string_dec a b), (list_eq_dec string_dec b a);
    congruence.
Qed.

Lemma components_match_sym (sa : list string) :
  forall sb, components_match sa sb = components_match sb sa.
Proof.
  induction sa as [|a sa IH]; intros [|b sb]; simpl; try reflexivity.
  rewrite (String.eqb_sym b a), IH.
  destruct (a =? b), (a =? "*"), (b =? "*"); reflexivity.
Qed.

(** C10: [operator==] does not depend on the order of its arguments: [a == b]
    and [b == a] give the same answer, and raise on the same pairs. *)
Theorem qvalue_eq_sym (a b : qvalue) : qvalue_eq a b = qvalue_eq b a.
Proof.
  unfold qvalue_eq, hasWildcard.
  rewrite (String.eqb_sym (value b) (value a)),
          (strset_eqb_sym (attributes b) (attributes a)).
  destruct ((value a =? value b) && strset_eqb (attributes a) (attributes b));
    [reflexivity|].
  destruct (split (value a) "/") as [sa|], (split (value b) "/") as [sb|];
    try reflexivity.
  rewrite (Nat.eqb_sym (List.length sb) (List.length sa)).
  rewrite (components_match_sym sb sa).
  destruct (existsb (String.eqb "*") sa), (existsb (String.eqb "*") sb);
    cbn [Bool.eqb]; try reflexivity;
    destruct (Nat.eqb_spec (List.length sa) (List.length sb)) as [E|E];
    try reflexivity; rewrite E; reflexivity.
Qed.

(** ** Status lines *)

Section Many.

Context {A : Type} (p : ascii -> bool) (k : string -> option A).

(** A successful repetition ends in a successful continuation. *)
Lemma many_sound (s : string) :
  forall lo hi r, many p lo hi k s = Some r -> exists s', k s' = Some r.
Proof.
  induction s as [|c s IH]; intros lo hi r H; simpl in H.
  - destruct lo; [eauto | discriminate].
  - destruct (p c && hi_allows hi).
    + destruct (many p (Nat.pred lo) (dec_hi hi) k s) as [r'|] eqn:E.
      * inversion H; subst. eapply IH; eauto.
      * destruct lo; [eauto | discriminate].
    + destruct lo; [eauto | discriminate].
Qed.

(** Backtracking reaches every split of the input after enough
    repetitions. *)
Lemma many_complete (s1 s2 : string) :
  forall lo,
    (lo <= String.length s1)%nat ->
    string_forallb p s1 = true ->
    k s2 <> None ->
    many p lo None k (s1 ++ s2) <> None.
Proof.
  induction s1 as [|c s1 IH]; intros lo Hlo Hp Hk.
  - simpl in Hlo. replace lo with O by lia. simpl.
    destruct s2 as [|c s2]; [exact Hk|]. simpl.
    destruct (p c && true); [|exact Hk].
    destruct (many p 0 None k s2); [discriminate | exact Hk].
  - simpl in Hp. apply andb_prop in Hp. destruct Hp as [Hc Hp].
    simpl. rewrite Hc. simpl.
    specialize (IH (Nat.pred lo) ltac:(simpl in Hlo; lia) Hp Hk).
    destruct (many p (Nat.pred lo) None k (s1 ++ s2)); [discriminate|].
    congruence.
Qed.

(** A repetition with no choice: the count is fixed, or the next
    character is outside the class. *)
Lemma many_exact (s1 s2 : string) :
  forall hi,
    string_forallb p s1 = true ->
    match hi with
    | Some n => n = String.length s1
    | None => match s2 with String c _ => p c = false | "" => True end
    end ->
    many p (String.length s1) hi k (s1 ++ s2) = k s2.
Proof.
  induction s1 as [|c s1 IH]; intros hi Hp Hhi.
  - destruct s2 as [|c s2]; [reflexivity|].
    cbn [many String.length append].
    destruct hi as [n|]; simpl in Hhi.
    + subst n. cbn [hi_allows]. now rewrite andb_false_r.
    + now rewrite Hhi.
  - simpl in Hp. apply andb_prop in Hp. destruct Hp as [Hc Hp].
    cbn [many String.length append Nat.pred]. rewrite Hc.
    assert (Hall : hi_allows hi = true) by (destruct hi; [subst|]; reflexivity).
    rewrite Hall. cbn [andb].
    rewrite IH; [now destruct (k s2) | exact Hp |].
    destruct hi as [n|]; [subst n; reflexivity | exact Hhi].
Qed.

End Many.

Lemma length_append (w r : string) :
  String.length (w ++ r) = (String.length w + String.length r)%nat.
Proof. induction w as [|c w IH]; simpl; [reflexivity | now rewrite IH]. Qed.

Lemma substring_prefix (w r : string) :
  substring 0 (String.length (w ++ r) - String.length r) (w ++ r) = w.
Proof.
  replace (String.length (w ++ r) - String.length r)%nat with (String.length w)
    by (rewrite length_append; lia).
  induction w as [|c w IH]; simpl.
  - now destruct r.
  - now rewrite IH.
Qed.

Lemma isdigit_not_space (c : ascii) : isdigit c = true -> isspace c = false.
Proof.
  unfold isdigit, isspace. intros H.
  apply andb_prop in H. destruct H as [H1 H2].
  apply Nat.leb_le in H1. apply Nat.leb_le in H2.
  rewrite (proj2 (Nat.leb_gt (nat_of_ascii c) 13)) by lia.
  rewrite andb_false_r. simpl. apply Nat.eqb_neq. lia.
Qed.

Lemma stat_accepts_wire (d1 d2 d3 : ascii) (text : string) :
  isdigit d1 = true -> isdigit d2 = true -> isdigit d3 = true ->
  string_forallb dot text = true ->
  exists g3 : string,
    regex_match ("HTTP/1.1 " ++ String d1 (String d2 (String d3 (" " ++ text ++ CRLF))))
                stat
    = Some [(3%nat, g3); (2%nat, String d1 (String d2 (String d3 "")));
            (1%nat, "HTTP/1.1")].
Proof.
  intros H1 H2 H3 Htext.
  unfold regex_match, stat.
  cbn -[Nat.sub String.length substring many].
  change (dot ".") with true. cbv iota.
  set (rest3 := String " " (text ++ CRLF)).
  set (rest1 := String " " (String d1 (String d2 (String d3 rest3)))).
  pose proof (substring_prefix "HTTP/1.1" rest1) as G1.
  cbn [append] in G1. rewrite G1. clear G1.
  pose proof (fun k => many_exact (A:=smatch) isspace k " "
                         (String d1 (String d2 (String d3 rest3))) None
                         eq_refl (isdigit_not_space d1 H1)) as M1.
  cbn [append String.length] in M1. fold rest1 in M1. rewrite M1. clear M1.
  assert (Hd : string_forallb isdigit (String d1 (String d2 (String d3 ""))) = true)
    by (simpl; now rewrite H1, H2, H3).
  pose proof (fun k => many_exact (A:=smatch) isdigit k
                         (String d1 (String d2 (String d3 ""))) rest3
                         (Some 3%nat) Hd eq_refl) as M2.
  cbn [append String.length] in M2. rewrite M2. clear M2.
  pose proof (substring_prefix (String d1 (String d2 (String d3 ""))) rest3) as G2.
  cbn [append] in G2. rewrite G2. clear G2.
  match goal with |- exists g3, ?m = _ => destruct m as [r|] eqn:E end.
  - apply many_sound in E. destruct E as [s1 E].
    apply many_sound in E. destruct E as [s2 E].
    apply many_sound in E. destruct E as [s3 E].
    destruct s3; inversion E. eexists. reflexivity.
  - exfalso. revert E.
    subst rest3.
    apply (many_complete isspace _ " " (text ++ CRLF) 1%nat);
      [simpl; lia | reflexivity |].
    apply (many_complete dot _ text CRLF 0%nat); [lia | exact Htext |].
    cbn. discriminate.
Qed.

Example statusLine_parse_wire :
  statusLine_of_string ("HTTP/1.0   404  Not  Found  " ++ CRLF)
  = mkStatusLine 404 "HTTP/1.0" "Not  Found  ".
Proof. reflexivity. Qed.

(** X20: a line the pattern rejects leaves the object as the default
    constructor made it: code 0, not valid, and the canned line on the
    wire. *)
Lemma statusLine_rejected (line : string) :
  regex_match line stat = None ->
  statusLine_of_string line = statusLine_default
  /\ code (statusLine_of_string line) = 0
  /\ valid (statusLine_of_string line) = false
  /\ statusLine_string (statusLine_of_string line)
     = "HTTP/1.1 500 Bad Status Line" ++ CRLF.
Proof.
  intros H. unfold statusLine_of_string. rewrite H. repeat split.
Qed.

Example statusLine_not_a_status_line :
  regex_match "not a status line" stat = None
  /\ valid (statusLine_of_string "not a status line") = false
  /\ statusLine_string (statusLine_of_string "not a status line")
     = "HTTP/1.1 500 Bad Status Line" ++ CRLF.
Proof. repeat split. Qed.

(** C6: the parsing constructor is documented to accept [HTTP/1.0] and
    [HTTP/1.1] status lines only.  The dot of its pattern is not escaped:
    the line [HTTP/1x1 200 OK], which the specified pattern rejects, is
    accepted with code 200 and protocol [HTTP/1x1], and is valid. *)
Theorem statusLine_accepts_other_protocol :
  regex_match "HTTP/1x1 200 OK" stat_specified = None
  /\ regex_match "HTTP/1x1 200 OK" stat <> None
  /\ statusLine_of_string "HTTP/1x1 200 OK" = mkStatusLine 200 "HTTP/1x1" "OK"
  /\ valid (statusLine_of_string "HTTP/1x1 200 OK") = true
  /\ statusLine_string (statusLine_of_string "HTTP/1x1 200 OK")
     = "HTTP/1x1 200 OK" ++ CRLF.
Proof.
  split; [reflexivity|]. split; [vm_compute; discriminate|].
  repeat split.
Qed.

(** A description that runs over two lines does not parse back. *)
Example statusLine_two_line_description :
  statusLine_of_string ("HTTP/1.1 200 a" ++ String LF "b" ++ CRLF)
  = statusLine_default.
Proof. reflexivity. Qed.

(** Every code from 100 to 599 prints as three digits that [std::stoi]
    reads back. *)
Lemma three_digits_all :
  forallb three_digits_ok (map Z.of_nat (seq 100 500)) = true.
Proof. vm_compute. reflexivity. Qed.

Lemma decimal_three_digits (c : Z) :
  100 <= c < 600 ->
  exists d1 d2 d3 : ascii,
    decimal c = String d1 (String d2 (String d3 ""))
    /\ isdigit d1 = true /\ isdigit d2 = true /\ isdigit d3 = true
    /\ (n <- stoi (decimal c) ;; Some (to_unsigned n)) = Some c.
Proof.
  intros Hc.
  assert (Hin : In c (map Z.of_nat (seq 100 500))).
  { apply in_map_iff. exists (Z.to_nat c). split; [lia|].
    apply in_seq. lia. }
  pose proof (proj1 (forallb_forall _ _) three_digits_all c Hin) as H.
  unfold three_digits_ok in H.
  destruct (decimal c) as [|d1 [|d2 [|d3 [|d4 s]]]]; try discriminate.
  destruct (stoi (String d1 (String d2 (String d3 "")))) as [n|];
    [|now rewrite andb_false_r in H].
  apply andb_prop in H. destruct H as [H Hn].
  apply andb_prop in H. destruct H as [H H3].
  apply andb_prop in H. destruct H as [H1 H2].
  exists d1, d2, d3. repeat split; try assumption.
  f_equal. now apply Z.eqb_eq.
Qed.

Section StatusLines.

Variable status : Z -> option string.

(** The descriptions of the table are single lines of text. *)
Hypothesis status_single_line :
  forall c text, status c = Some text -> string_forallb dot text = true.

Lemma statusDescription_single_line (c : Z) :
  string_forallb dot (statusDescription status c) = true.
Proof.
  unfold statusDescription. destruct (status c) as [text|] eqn:E.
  - eauto.
  - reflexivity.
Qed.

(** C7: a status line made from a code [c] with [100 <= c < 600] is valid,
    and parsing its wire form gives back the same code and the same
    protocol. *)
Theorem statusLine_roundtrip (c : Z) :
  100 <= c < 600 ->
  valid (statusLine_of_code status c "HTTP/1.1") = true
  /\ code (statusLine_of_string
             (statusLine_string (statusLine_of_code status c "HTTP/1.1")))
     = code (statusLine_of_code status c "HTTP/1.1")
  /\ protocol (statusLine_of_string
                 (statusLine_string (statusLine_of_code status c "HTTP/1.1")))
     = protocol (statusLine_of_code status c "HTTP/1.1").
Proof.
  intros Hc.
  assert (Hvalid : valid (statusLine_of_code status c "HTTP/1.1") = true).
  { unfold valid, statusLine_of_code. cbn [code].
    apply andb_true_intro. split; [apply Z.leb_le | apply Z.ltb_lt]; lia. }
  split; [exact Hvalid|].
  unfold statusLine_string. rewrite Hvalid. cbn [negb].
  unfold statusLine_of_code. cbn [code protocol description].
  destruct (decimal_three_digits c Hc) as (d1 & d2 & d3 & Hdec & H1 & H2 & H3 & Hstoi).
  destruct (stat_accepts_wire d1 d2 d3 (statusDescription status c) H1 H2 H3
              (statusDescription_single_line c)) as [g3 Hm].
  unfold statusLine_of_string. rewrite Hdec in *. cbn [append] in Hm |- *.
  rewrite Hm. cbn [sub Nat.eqb code protocol].
  destruct (stoi (String d1 (String d2 (String d3 "")))) as [n|];
    [|discriminate].
  split; [congruence | reflexivity].
Qed.

End StatusLines.

Lemma status_of_tests_single_line (c : Z) (text : string) :
  status_of_tests c = Some text -> string_forallb dot text = true.
Proof.
  unfold status_of_tests.
  destruct (c =? 100)%Z; [intros H; inversion H; reflexivity|].
  destruct (c =? 200)%Z; [intros H; inversion H; reflexivity|].
  destruct (c =? 404)%Z; [intros H; inversion H; reflexivity|].
  discriminate.
Qed.

Lemma statusLine_roundtrip_witness :
  100 <= 404 < 600
  /\ valid (statusLine_of_code status_of_tests 404 "HTTP/1.1") = true
  /\ code (statusLine_of_string
             (statusLine_string (statusLine_of_code status_of_tests 404 "HTTP/1.1")))
     = code (statusLine_of_code status_of_tests 404 "HTTP/1.1")
  /\ protocol (statusLine_of_string
                 (statusLine_string (statusLine_of_code status_of_tests 404 "HTTP/1.1")))
     = protocol (statusLine_of_code status_of_tests 404 "HTTP/1.1").
Proof.
  assert (H : 100 <= 404 < 600) by lia.
  split; [exact H|].
  exact (statusLine_roundtrip status_of_tests status_of_tests_single_line 404 H).
Defined.

(** ** Session accessors *)

(** C8: [queries()] is the sum of the requests received and the replies
    sent, for every session; with 1 request and 2 replies it is 3, which is
    neither difference of the two counters, and the table of
    [testBasicSession] passes with the sum and fails with a difference. *)
Theorem queries_sum :
  (forall v : sessionData, queries v = (requests v + replies v)%N)
  /\ (forall st cl ct rq hd inp,
         let v := mkSessionData st 1 2 cl ct rq hd inp in
         queries v = 3%N
         /\ Z.of_N (queries v) <> Z.of_N (requests v) - Z.of_N (replies v)
         /\ Z.of_N (queries v) <> Z.of_N (replies v) - Z.of_N (requests v))
  /\ testBasicSession = true
  /\ testBasicSession_with (fun v => (replies v - requests v)%N) = false.
Proof.
  split; [reflexivity|]. split; [|split; reflexivity].
  intros. subst v. cbn. repeat split; discriminate.
Qed.

(** ** Reply serialization *)

Section Replies.

Variable status : Z -> option string.

(** C9: an informational status (100-199) yields the status line and the
    blank line only, whatever the headers and the body; otherwise
    [Content-Length], with the byte length of the body, comes before the
    caller's header lines, the blank line and the body, and a status of
    400 or more puts [Connection: close] first. *)
Theorem generateReply_layout (statusCode : Z) (header : list (string * string))
    (body : string) :
  let stline := statusLine_string (statusLine_of_code status statusCode "HTTP/1.1") in
  let size := decimal (Z.of_nat (String.length body)) in
  let lines :=
    String.concat "" (map (fun h => fst h ++ ": " ++ snd h ++ CRLF) header) in
  (100 <= statusCode < 200 ->
   generateReply status statusCode header body = stline ++ CRLF)
  /\ (400 <= statusCode ->
      generateReply status statusCode header body
      = stline ++ "Connection: close" ++ CRLF
        ++ "Content-Length: " ++ size ++ CRLF ++ lines ++ CRLF ++ body)
  /\ (statusCode < 100 \/ 200 <= statusCode < 400 ->
      generateReply status statusCode header body
      = stline ++ "Content-Length: " ++ size ++ CRLF ++ lines ++ CRLF ++ body).
Proof.
  cbv zeta. unfold generateReply. repeat split; intros H.
  - rewrite (proj2 (Z.leb_le _ _)), (proj2 (Z.ltb_lt _ _)) by lia.
    reflexivity.
  - rewrite (proj2 (Z.ltb_ge statusCode 200)) by lia.
    rewrite andb_false_r.
    rewrite (proj2 (Z.leb_le 400 statusCode)) by lia.
    reflexivity.
  - rewrite (proj2 (Z.leb_gt 400 statusCode)) by lia.
    destruct H as [H|H].
    + rewrite (proj2 (Z.leb_gt 100 statusCode)) by lia. reflexivity.
    + rewrite (proj2 (Z.ltb_ge statusCode 200)) by lia.
      rewrite andb_false_r. reflexivity.
Qed.

(** The table of [testReply] passes whenever the status table has the
    three descriptions the table shows. *)
Lemma testReply_passes :
  status 100 = Some "Continue" ->
  status 200 = Some "OK" ->
  status 404 = Some "Not Found" ->
  testReply status = true.
Proof.
  intros H100 H200 H404.
  unfold testReply, testReply_samples, generateReply, statusLine_of_code,
    statusDescription.
  cbn [forallb]. rewrite H100, H200, H404. reflexivity.
Qed.

End Replies.

Lemma generateReply_layout_witness :
  (100 <= 100 < 200 /\ 400 <= 404 /\ (200 < 100 \/ 200 <= 200 < 400))
  /\ generateReply status_of_tests 100 [("Server", "cxxhttp")] "ignored"
     = "HTTP/1.1 100 Continue" ++ CRLF ++ CRLF
  /\ generateReply status_of_tests 404 [("Server", "cxxhttp")] "sorry"
     = "HTTP/1.1 404 Not Found" ++ CRLF ++ "Connection: close" ++ CRLF
       ++ "Content-Length: 5" ++ CRLF ++ "Server: cxxhttp" ++ CRLF ++ CRLF
       ++ "sorry"
  /\ generateReply status_of_tests 200 [("Server", "cxxhttp")] "foo"
     = "HTTP/1.1 200 OK" ++ CRLF ++ "Content-Length: 3" ++ CRLF
       ++ "Server: cxxhttp" ++ CRLF ++ CRLF ++ "foo".
Proof.
  assert (H1 : 100 <= 100 < 200) by lia.
  assert (H2 : 400 <= 404) by lia.
  assert (H3 : 200 < 100 \/ 200 <= 200 < 400) by (right; lia).
  split; [exact (conj H1 (conj H2 H3))|].
  split; [|split].
  - exact (proj1 (generateReply_layout status_of_tests 100
                    [("Server", "cxxhttp")] "ignored") H1).
  - exact (proj1 (proj2 (generateReply_layout status_of_tests 404
                           [("Server", "cxxhttp")] "sorry")) H2).
  - exact (proj2 (proj2 (generateReply_layout status_of_tests 200
                           [("Server", "cxxhttp")] "foo")) H3).
Defined.

Example generateReply_empty_body :
  generateReply status_of_tests 200 [] ""
  = "HTTP/1.1 200 OK" ++ CRLF ++ "Content-Length: 0" ++ CRLF ++ CRLF.
Proof. reflexivity. Qed.

Lemma testReply_passes_witness :
  status_of_tests 100 = Some "Continue"
  /\ testReply status_of_tests = true.
Proof.
  split; [reflexivity|].
  exact (testReply_passes status_of_tests eq_refl eq_refl eq_refl).
Defined.

(** * Further properties of the code *)

(** ** [trim] *)

Lemma rfind_zero_iff (s : string) :
  rfind_if_not_space_base s = 0%nat <-> string_forallb isspace s = true.
Proof.
  induction s as [|c s IH]; simpl; [tauto|].
  destruct (rfind_if_not_space_base s) as [|n].
  - destruct (isspace c); simpl.
    + split; intros _; [now apply IH | reflexivity].
    + split; discriminate.
  - split; [discriminate|]. intros H. apply andb_prop in H.
    destruct H as [_ H]. apply IH in H. discriminate.
Qed.

Lemma find_before_rfind (s : string) :
  rfind_if_not_space_base s <> 0%nat ->
  (find_if_not_space s < rfind_if_not_space_base s)%nat.
Proof.
  induction s as [|c s IH]; simpl; [congruence|].
  destruct (rfind_if_not_space_base s) as [|n].
  - destruct (isspace c); [congruence | lia].
  - intros _. destruct (isspace c); [|lia].
    assert (find_if_not_space s < S n)%nat by (apply IH; discriminate). lia.
Qed.

Lemma find_all_space (s : string) :
  string_forallb isspace s = true -> find_if_not_space s = String.length s.
Proof.
  induction s as [|c s IH]; simpl; [reflexivity|].
  intros H. apply andb_prop in H. destruct H as [Hc H].
  rewrite Hc. now rewrite IH.
Qed.

Lemma trim_none_blank (s : string) : trim s = None <-> blank s = true.
Proof.
  unfold trim, blank. cbv zeta.
  destruct (string_forallb isspace s) eqn:Hall.
  - rewrite (find_all_space s Hall). rewrite (proj2 (rfind_zero_iff s) Hall).
    destruct s as [|c s]; simpl; [split; discriminate|].
    split; reflexivity.
  - rewrite andb_false_r.
    assert (Hlt : (find_if_not_space s < rfind_if_not_space_base s)%nat).
    { apply find_before_rfind. intros H. apply rfind_zero_iff in H. congruence. }
    rewrite (proj2 (Nat.leb_le _ _)) by lia. split; discriminate.
Qed.

(** X1: [trim] raises exactly on the non-empty strings of whitespace only;
    on every other string, the empty one included, it returns a string. *)
Theorem trim_raises_iff (s : string) : trim s = None <-> blank s = true.
Proof. exact (trim_none_blank s). Qed.

Lemma trim_raises_iff_witness :
  blank (String " " (String CR (String LF ""))) = true
  /\ trim (String " " (String CR (String LF ""))) = None.
Proof.
  assert (H : blank (String " " (String CR (String LF ""))) = true)
    by reflexivity.
  split; [exact H|].
  exact (proj2 (trim_raises_iff (String " " (String CR (String LF "")))) H).
Defined.

Lemma substring_zero (s : string) (n : nat) : substring n 0 s = "".
Proof.
  revert n. induction s as [|c s IH]; intros [|n]; simpl; auto.
Qed.

Lemma substring_rtrim (s : string) :
  substring 0 (rfind_if_not_space_base s) s = rtrim s.
Proof.
  induction s as [|c s IH]; simpl; [reflexivity|].
  destruct (rfind_if_not_space_base s) as [|n] eqn:E.
  - rewrite <- IH, substring_zero.
    destruct (isspace c); simpl; [reflexivity|]. now rewrite substring_zero.
  - simpl. rewrite IH. destruct s as [|c' s']; [discriminate|].
    rewrite <- IH. reflexivity.
Qed.

(** What [trim] returns: the string without its leading and its trailing
    whitespace. *)
Lemma substring_skip_space (s : string) :
  (find_if_not_space s <= rfind_if_not_space_base s)%nat ->
  substring (find_if_not_space s)
            (rfind_if_not_space_base s - find_if_not_space s) s
  = substring 0 (rfind_if_not_space_base (skip_space s)) (skip_space s).
Proof.
  induction s as [|c s IH]; [reflexivity|].
  cbn [find_if_not_space rfind_if_not_space_base skip_space].
  destruct (isspace c) eqn:Hc.
  - destruct (rfind_if_not_space_base s) as [|n] eqn:E; [lia|].
    intros H. rewrite <- IH by lia. reflexivity.
  - intros _. rewrite Nat.sub_0_r.
    cbn [rfind_if_not_space_base]. rewrite Hc. reflexivity.
Qed.

Lemma trim_value (s t : string) : trim s = Some t -> t = rtrim (skip_space s).
Proof.
  unfold trim. cbv zeta.
  destruct (find_if_not_space s <=? rfind_if_not_space_base s)%nat eqn:L;
    [|discriminate].
  apply Nat.leb_le in L. intros H. inversion H.
  rewrite substring_skip_space by exact L. apply substring_rtrim.
Qed.

Lemma find_skip_space (s : string) : find_if_not_space (skip_space s) = 0%nat.
Proof.
  induction s as [|c s IH]; simpl; [reflexivity|].
  destruct (isspace c) eqn:Hc; [exact IH|]. simpl. now rewrite Hc.
Qed.

Lemma find_rtrim (s : string) :
  find_if_not_space s = 0%nat -> find_if_not_space (rtrim s) = 0%nat.
Proof.
  destruct s as [|c s]; simpl; [reflexivity|].
  destruct (isspace c) eqn:Hc; [discriminate|]. intros _.
  destruct (rtrim s); simpl; now rewrite Hc.
Qed.

Lemma rfind_rtrim (s : string) :
  rfind_if_not_space_base (rtrim s) = String.length (rtrim s).
Proof.
  induction s as [|c s IH]; simpl; [reflexivity|].
  destruct (rtrim s) as [|c' r] eqn:E.
  - destruct (isspace c) eqn:Hc; simpl; [reflexivity|]. now rewrite Hc.
  - change (rfind_if_not_space_base (String c (String c' r))
            = S (String.length (String c' r))).
    cbn [rfind_if_not_space_base] in IH |- *.
    rewrite IH. reflexivity.
Qed.

Lemma substring_all (s : string) : substring 0 (String.length s) s = s.
Proof. induction s as [|c s IH]; simpl; [reflexivity | now rewrite IH]. Qed.

(** X2: what [trim] returns has no whitespace left at either end, and
    trimming it again gives it back unchanged. *)
Theorem trim_idempotent (s t : string) :
  trim s = Some t ->
  find_if_not_space t = 0%nat
  /\ rfind_if_not_space_base t = String.length t
  /\ trim t = Some t.
Proof.
  intros H. apply trim_value in H. subst t.
  assert (H1 := find_rtrim (skip_space s) (find_skip_space s)).
  assert (H2 := rfind_rtrim (skip_space s)).
  split; [exact H1|]. split; [exact H2|].
  unfold trim. rewrite H1, H2. simpl. rewrite Nat.sub_0_r.
  now rewrite substring_all.
Qed.

Lemma trim_idempotent_witness :
  trim "  a b  " = Some "a b"
  /\ find_if_not_space "a b" = 0%nat
  /\ rfind_if_not_space_base "a b" = String.length "a b"
  /\ trim "a b" = Some "a b".
Proof.
  assert (H : trim "  a b  " = Some "a b") by reflexivity.
  split; [exact H|]. exact (trim_idempotent "  a b  " "a b" H).
Defined.

(** ** [split] *)

Lemma mapM_none_iff {A B : Type} (f : A -> option B) (l : list A) :
  mapM f l = None <-> exists a, In a l /\ f a = None.
Proof.
  induction l as [|a l IH]; simpl.
  - split; [discriminate | intros (a & [] & _)].
  - destruct (f a) as [b|] eqn:E.
    + destruct (mapM f l) as [bs|].
      * split; [discriminate|]. intros (a' & [H|H] & Hf); [congruence|].
        assert (Hn : Some bs = None) by (apply (proj2 IH); eauto).
        discriminate.
      * split; [|reflexivity]. intros _.
        destruct (proj1 IH eq_refl) as (a' & Hin & Hf). eauto.
    + split; [|reflexivity]. intros _. eauto.
Qed.

Lemma mapM_Forall2 {A B : Type} (f : A -> option B) (l : list A) :
  forall bs, mapM f l = Some bs -> Forall2 (fun a b => f a = Some b) l bs.
Proof.
  induction l as [|a l IH]; simpl; intros bs H.
  - inversion H. constructor.
  - destruct (f a) as [b|] eqn:E; [|discriminate].
    destruct (mapM f l) as [bs'|]; [|discriminate].
    inversion H. constructor; auto.
Qed.

(** X3: [split] raises exactly when one of the items between two
    separators is a non-empty run of whitespace. *)
Theorem split_raises_iff (s : string) (sep : ascii) :
  split s sep = None <-> existsb blank (getline_items sep s) = true.
Proof.
  rewrite split_items, mapM_none_iff, existsb_exists.
  split; intros (item & Hin & H); exists item; (split; [exact Hin|]);
    now apply trim_none_blank.
Qed.

Lemma split_raises_iff_witness :
  existsb blank (getline_items "," "a, ,b") = true
  /\ split "a, ,b" "," = None.
Proof.
  assert (H : existsb blank (getline_items "," "a, ,b") = true) by reflexivity.
  split; [exact H|]. exact (proj2 (split_raises_iff "a, ,b" ",") H).
Defined.

Lemma getline_items_nil (sep : ascii) (s : string) :
  getline_items sep s = [] -> s = "".
Proof.
  destruct s as [|c s]; [reflexivity|]. simpl.
  destruct (Ascii.eqb c sep); [discriminate|].
  destruct (getline_items sep s); discriminate.
Qed.

Lemma getline_items_join (sep : ascii) (s : string) :
  s = join sep (getline_items sep s)
      ++ (if last_is sep s then String sep "" else "").
Proof.
  induction s as [|c s IH]; [reflexivity|].
  cbn [getline_items]. destruct (Ascii.eqb c sep) eqn:E.
  - apply Ascii.eqb_eq in E. subst c.
    destruct (getline_items sep s) as [|item items] eqn:Hitems.
    + apply getline_items_nil in Hitems. subst s. simpl.
      now rewrite Ascii.eqb_refl.
    + destruct s as [|c' s']; [discriminate|].
      change (last_is sep (String sep (String c' s')))
        with (last_is sep (String c' s')).
      rewrite IH at 1. reflexivity.
  - destruct (getline_items sep s) as [|item items] eqn:Hitems.
    + apply getline_items_nil in Hitems. subst s. simpl. now rewrite E.
    + destruct s as [|c' s']; [discriminate|].
      change (last_is sep (String c (String c' s')))
        with (last_is sep (String c' s')).
      rewrite IH at 1. destruct items; reflexivity.
Qed.

Lemma getline_items_no_sep (sep : ascii) (s : string) :
  Forall (fun item => occurs sep item = false) (getline_items sep s).
Proof.
  induction s as [|c s IH]; simpl; [constructor|].
  destruct (Ascii.eqb c sep) eqn:E.
  - constructor; [reflexivity | exact IH].
  - destruct (getline_items sep s) as [|item items].
    + constructor; [simpl; now rewrite E | constructor].
    + inversion IH; subst. constructor; [simpl; now rewrite E | assumption].
Qed.

Lemma occurs_skip_space (c : ascii) (s : string) :
  occurs c s = false -> occurs c (skip_space s) = false.
Proof.
  induction s as [|a s IH]; simpl; [reflexivity|].
  intros H. apply orb_false_elim in H. destruct H as [H1 H2].
  destruct (isspace a); [auto|]. simpl. now rewrite H1, H2.
Qed.

Lemma occurs_rtrim (c : ascii) (s : string) :
  occurs c s = false -> occurs c (rtrim s) = false.
Proof.
  induction s as [|a s IH]; simpl; [reflexivity|].
  intros H. apply orb_false_elim in H. destruct H as [H1 H2].
  specialize (IH H2).
  destruct (rtrim s) as [|a' r].
  - destruct (isspace a); simpl; [reflexivity|]. now rewrite H1.
  - cbn [occurs] in IH |- *. now rewrite H1, IH.
Qed.

(** X4: what [split] returns.  The text is its items joined by the
    separator, up to one final separator that is dropped; no item holds the
    separator; and the pieces returned are the items, each trimmed, in the
    same order, none of them holding the separator. *)
Theorem split_pieces (s : string) (sep : ascii) (pieces : list string) :
  split s sep = Some pieces ->
  exists items : list string,
    s = join sep items ++ (if last_is sep s then String sep "" else "")
    /\ Forall (fun item => occurs sep item = false) items
    /\ Forall2 (fun item piece => trim item = Some piece) items pieces
    /\ Forall (fun piece => occurs sep piece = false) pieces.
Proof.
  rewrite split_items. intros H. exists (getline_items sep s).
  split; [apply getline_items_join|].
  split; [apply getline_items_no_sep|].
  apply mapM_Forall2 in H. split; [exact H|].
  pose proof (getline_items_no_sep sep s) as Hno.
  induction H as [|item piece items pieces Ht _ IH]; [constructor|].
  inversion Hno; subst. constructor; [|auto].
  apply trim_value in Ht. subst piece.
  now apply occurs_rtrim, occurs_skip_space.
Qed.

Lemma split_pieces_witness :
  split "a, b,," "," = Some ["a"; "b"; ""]
  /\ exists items : list string,
      "a, b,," = join "," items
                 ++ (if last_is "," "a, b,," then String "," "" else "")
      /\ Forall (fun item => occurs "," item = false) items
      /\ Forall2 (fun item piece => trim item = Some piece) items ["a"; "b"; ""]
      /\ Forall (fun piece => occurs "," piece = false) ["a"; "b"; ""].
Proof.
  assert (H : split "a, b,," "," = Some ["a"; "b"; ""]) by reflexivity.
  split; [exact H|]. exact (split_pieces "a, b,," "," ["a"; "b"; ""] H).
Defined.

(** ** The parsing constructor *)

Lemma fold_segments_value (segments : list string) :
  forall v : qvalue,
    value (fold_left qvalue_segment segments v)
    = if value v =? "" then first_nonempty segments else value v.
Proof.
  induction segments as [|s segments IH]; intros v.
  - simpl. destruct (value v =? "") eqn:E; [|reflexivity].
    now apply String.eqb_eq in E.
  - cbn [fold_left first_nonempty]. rewrite IH. unfold qvalue_segment.
    destruct (value v =? "") eqn:E; cbn [value]; [reflexivity|].
    destruct (q v =? -1)%Z; [destruct (regex_match s rx)|]; cbn [value];
      now rewrite E.
Qed.

Lemma fold_segments_empty_value (segments : list string) :
  forall v : qvalue,
    attributes v = [] -> extensions v = [] -> q v = -1 ->
    value (fold_left qvalue_segment segments v) = "" ->
    attributes (fold_left qvalue_segment segments v) = []
    /\ extensions (fold_left qvalue_segment segments v) = []
    /\ q (fold_left qvalue_segment segments v) = -1.
Proof.
  induction segments as [|s segments IH]; intros v Ha He Hq Hv; [auto|].
  cbn [fold_left] in *. rewrite fold_segments_value in Hv.
  unfold qvalue_segment in *.
  destruct (value v =? "") eqn:E.
  - apply IH; auto. rewrite fold_segments_value. exact Hv.
  - exfalso. apply String.eqb_neq in E.
    destruct (q v =? -1)%Z; [destruct (regex_match s rx)|];
      cbn [value] in Hv;
      destruct (value v =? "") eqn:E'; try (apply String.eqb_eq in E');
      congruence.
Qed.

(** X5: the value of a parsed q-value is the first piece of the input that
    is not empty.  When there is none, the value is empty, and then the
    q-value has no attributes, no extensions and quality 0, and its
    recombined string is empty. *)
Theorem qvalue_value_first_piece (val : string) (segments : list string) :
  split val ";" = Some segments ->
  exists v : qvalue,
    qvalue_of_string val = Some v
    /\ value v = first_nonempty segments
    /\ (value v = "" ->
        attributes v = [] /\ extensions v = [] /\ q v = 0
        /\ qvalue_string v = "").
Proof.
  intros Hs. unfold qvalue_of_string. rewrite Hs. eexists.
  split; [reflexivity|].
  set (v := fold_left qvalue_segment segments (mkQvalue "" [] [] (-1))).
  assert (Hv : value v = first_nonempty segments)
    by (subst v; now rewrite fold_segments_value).
  split; [exact Hv|]. cbn [qvalue_finish value]. intros Hempty.
  destruct (fold_segments_empty_value segments (mkQvalue "" [] [] (-1))
              eq_refl eq_refl eq_refl Hempty) as (Ha & He & Hq).
  fold v in Ha, He, Hq. unfold qvalue_finish, qvalue_string.
  cbn [attributes extensions q value]. rewrite Ha, He, Hq, Hempty.
  repeat split.
Qed.

Lemma qvalue_value_first_piece_witness :
  split ";text/html ;level=1" ";" = Some [""; "text/html"; "level=1"]
  /\ exists v : qvalue,
      qvalue_of_string ";text/html ;level=1" = Some v
      /\ value v = first_nonempty [""; "text/html"; "level=1"]
      /\ (value v = "" ->
          attributes v = [] /\ extensions v = [] /\ q v = 0
          /\ qvalue_string v = "").
Proof.
  assert (H : split ";text/html ;level=1" ";" = Some [""; "text/html"; "level=1"])
    by reflexivity.
  split; [exact H|].
  exact (qvalue_value_first_piece ";text/html ;level=1"
           [""; "text/html"; "level=1"] H).
Defined.

Lemma getline_items_single (sep : ascii) (s : string) :
  occurs sep s = false -> s <> "" -> getline_items sep s = [s].
Proof.
  induction s as [|c s IH]; [congruence|]. intros H _.
  simpl in H. apply orb_false_elim in H. destruct H as [Hc Hs].
  simpl. rewrite Hc. destruct s as [|c' s']; [reflexivity|].
  rewrite IH; [reflexivity | exact Hs | discriminate].
Qed.

(** X6: a text without [;] that trims to a non-empty token [t] parses to the
    q-value of [t] alone, with quality 1000, and that q-value recombines to
    [t]. *)
Theorem qvalue_bare_token (s t : string) :
  occurs ";" s = false -> trim s = Some t -> t <> "" ->
  qvalue_of_string s = Some (mkQvalue t [] [] 1000)
  /\ qvalue_string (mkQvalue t [] [] 1000) = t.
Proof.
  intros Hsep Htrim Ht.
  assert (Hs : s <> "") by (intros ->; inversion Htrim; congruence).
  unfold qvalue_of_string. rewrite split_items, getline_items_single by assumption.
  cbn [mapM]. rewrite Htrim. cbn [fold_left]. unfold qvalue_segment, qvalue_finish.
  cbn [value attributes extensions q]. change ("" =? "") with true. cbv iota.
  cbn [value attributes extensions q].
  apply String.eqb_neq in Ht. rewrite Ht. cbn [negb andb Z.eqb].
  split; [reflexivity|]. unfold qvalue_string. cbn [value attributes].
  rewrite Ht. reflexivity.
Qed.

Lemma qvalue_bare_token_witness :
  (occurs ";" " text/html " = false /\ trim " text/html " = Some "text/html"
   /\ "text/html" <> "")
  /\ qvalue_of_string " text/html " = Some (mkQvalue "text/html" [] [] 1000)
  /\ qvalue_string (mkQvalue "text/html" [] [] 1000) = "text/html".
Proof.
  assert (H1 : occurs ";" " text/html " = false) by reflexivity.
  assert (H2 : trim " text/html " = Some "text/html") by reflexivity.
  assert (H3 : "text/html" <> "") by discriminate.
  split; [exact (conj H1 (conj H2 H3))|].
  exact (qvalue_bare_token " text/html " "text/html" H1 H2 H3).
Defined.

Lemma ltb_of_compare (a b : string) :
  (a <? b) = true <-> String.compare a b = Lt.
Proof.
  unfold String.ltb. destruct (String.compare a b); split; congruence.
Qed.

Lemma strset_insert_head (x y : string) (l : list string) :
  String.compare x y = Gt ->
  ascending (y :: l) = true ->
  ascending (strset_insert x l) = true ->
  ascending (y :: strset_insert x l) = true.
Proof.
  intros Hxy Hl Hins.
  assert (Hyx : (y <? x) = true).
  { apply ltb_of_compare. rewrite String.compare_antisym, Hxy. reflexivity. }
  destruct l as [|z l]; [simpl; now rewrite Hyx|].
  cbn [ascending] in Hl. apply andb_prop in Hl. destruct Hl as [Hyz Hl].
  cbn [strset_insert] in Hins |- *.
  destruct (String.compare x z); cbn [ascending] in Hins |- *;
    rewrite ?Hyx, ?Hyz; simpl; exact Hins || (now rewrite Hl).
Qed.

Lemma strset_insert_ascending (x : string) (l : list string) :
  ascending l = true -> ascending (strset_insert x l) = true.
Proof.
  induction l as [|y l IH]; intros H; [reflexivity|].
  cbn [strset_insert]. destruct (String.compare x y) eqn:E.
  - exact H.
  - cbn [ascending]. rewrite (proj2 (ltb_of_compare x y) E). exact H.
  - apply strset_insert_head; [exact E | exact H |].
    apply IH. destruct l as [|z l]; [reflexivity|].
    cbn [ascending] in H. apply andb_prop in H. tauto.
Qed.

Lemma strset_insert_In (x z : string) (l : list string) :
  In z (strset_insert x l) <-> z = x \/ In z l.
Proof.
  induction l as [|y l IH]; simpl; [intuition|].
  destruct (String.compare x y) eqn:E; simpl.
  - apply String.compare_eq_iff in E. subst y. intuition.
  - intuition.
  - rewrite IH. intuition.
Qed.

Lemma strset_insert_Forall (P : string -> Prop) (x : string) (l : list string) :
  P x -> Forall P l -> Forall P (strset_insert x l).
Proof.
  intros Hx Hl. apply Forall_forall. intros z Hz.
  apply strset_insert_In in Hz. destruct Hz as [->|Hz]; [exact Hx|].
  eapply Forall_forall; eassumption.
Qed.

Lemma qvalue_segment_sets (P : string -> Prop) (v : qvalue) (s : string) :
  P s ->
  ascending (attributes v) = true -> ascending (extensions v) = true ->
  Forall P (attributes v) -> Forall P (extensions v) ->
  ascending (attributes (qvalue_segment v s)) = true
  /\ ascending (extensions (qvalue_segment v s)) = true
  /\ Forall P (attributes (qvalue_segment v s))
  /\ Forall P (extensions (qvalue_segment v s)).
Proof.
  intros Hs Ha He Pa Pe. unfold qvalue_segment.
  destruct (value v =? ""); [cbn; auto|].
  destruct (q v =? -1)%Z; [destruct (regex_match s rx)|];
    cbn [attributes extensions];
    auto using strset_insert_ascending, strset_insert_Forall.
Qed.

Lemma fold_segments_sets (segments : list string) :
  forall (v : qvalue) (P : string -> Prop),
    (forall s, In s segments -> P s) ->
    ascending (attributes v) = true -> ascending (extensions v) = true ->
    Forall P (attributes v) -> Forall P (extensions v) ->
    let v' := fold_left qvalue_segment segments v in
    ascending (attributes v') = true /\ ascending (extensions v') = true
    /\ Forall P (attributes v') /\ Forall P (extensions v').
Proof.
  induction segments as [|s segments IH]; intros v P HP Ha He Pa Pe; [simpl; auto|].
  cbn [fold_left].
  destruct (qvalue_segment_sets P v s (HP s (or_introl eq_refl)) Ha He Pa Pe)
    as (Ha' & He' & Pa' & Pe').
  apply IH; auto. intros s' Hs'. apply HP. now right.
Qed.

(** X7: the attributes and the extensions of a parsed q-value are kept in
    strictly ascending order, whatever their order in the input, and each
    of them is one of the pieces of the input. *)
Theorem qvalue_sets_ascending (val : string) (segments : list string) (v : qvalue) :
  split val ";" = Some segments ->
  qvalue_of_string val = Some v ->
  ascending (attributes v) = true /\ ascending (extensions v) = true
  /\ Forall (fun a => In a segments) (attributes v)
  /\ Forall (fun a => In a segments) (extensions v).
Proof.
  intros Hs Hv. unfold qvalue_of_string in Hv. rewrite Hs in Hv.
  inversion Hv. subst v. unfold qvalue_finish. cbn [attributes extensions].
  apply (fold_segments_sets segments (mkQvalue "" [] [] (-1))
           (fun a => In a segments)); auto.
Qed.

Lemma qvalue_sets_ascending_witness :
  (split "t;b;a;q=1;z;y" ";" = Some ["t"; "b"; "a"; "q=1"; "z"; "y"]
   /\ qvalue_of_string "t;b;a;q=1;z;y"
      = Some (mkQvalue "t" ["a"; "b"] ["y"; "z"] 1000))
  /\ ascending ["a"; "b"] = true /\ ascending ["y"; "z"] = true
  /\ Forall (fun a => In a ["t"; "b"; "a"; "q=1"; "z"; "y"]) ["a"; "b"]
  /\ Forall (fun a => In a ["t"; "b"; "a"; "q=1"; "z"; "y"]) ["y"; "z"].
Proof.
  assert (H1 : split "t;b;a;q=1;z;y" ";" = Some ["t"; "b"; "a"; "q=1"; "z"; "y"])
    by reflexivity.
  assert (H2 : qvalue_of_string "t;b;a;q=1;z;y"
               = Some (mkQvalue "t" ["a"; "b"] ["y"; "z"] 1000)) by reflexivity.
  split; [exact (conj H1 H2)|].
  exact (qvalue_sets_ascending "t;b;a;q=1;z;y" _ _ H1 H2).
Defined.

Lemma thousandths_all :
  forallb thousandths_ok (map Z.of_nat (seq 0 2000)) = true.
Proof. vm_compute. reflexivity. Qed.

(** X8: the quality read from [q=D.DDD].  For every number [n] of
    thousandths below 2000, the text [x;q=D.DDD] parses to the value [x]
    with quality [n], cut down to 1000, except that single-precision
    arithmetic gives [n - 1] for the ten numbers 251, 253, 502, 506, 511,
    1004, 1009, 1012, 1017 and 1022: [q=0.251] is quality 250. *)
Theorem qvalue_quality_of_thousandths (n : Z) :
  0 <= n < 2000 ->
  qvalue_of_string ("x;q=" ++ thousandths n)
  = Some (mkQvalue "x" [] [] (quality_of_thousandths n)).
Proof.
  intros Hn.
  assert (Hin : In n (map Z.of_nat (seq 0 2000))).
  { apply in_map_iff. exists (Z.to_nat n). split; [lia|]. apply in_seq. lia. }
  pose proof (proj1 (forallb_forall _ _) thousandths_all n Hin) as H.
  unfold thousandths_ok in H.
  destruct (qvalue_of_string ("x;q=" ++ thousandths n)) as [[v a e qq]|];
    [|discriminate].
  cbn [value attributes extensions q] in H.
  apply andb_prop in H. destruct H as [H Hq].
  apply andb_prop in H. destruct H as [H He].
  apply andb_prop in H. destruct H as [Hv Ha].
  apply String.eqb_eq in Hv. apply Z.eqb_eq in Hq.
  unfold strset_eqb in Ha, He.
  destruct (list_eq_dec string_dec a []); [|discriminate].
  destruct (list_eq_dec string_dec e []); [|discriminate].
  now subst.
Qed.

Lemma qvalue_quality_of_thousandths_witness :
  0 <= 251 < 2000
  /\ qvalue_of_string ("x;q=" ++ thousandths 251)
     = Some (mkQvalue "x" [] [] (quality_of_thousandths 251)).
Proof.
  assert (H : 0 <= 251 < 2000) by lia.
  split; [exact H|]. exact (qvalue_quality_of_thousandths 251 H).
Defined.

Example thousandths_251 :
  thousandths 251 = "0.251" /\ quality_of_thousandths 251 = 250.
Proof. split; reflexivity. Qed.

(** ** The match relation *)

Lemma strset_eqb_refl (a : list string) : strset_eqb a a = true.
Proof. unfold strset_eqb. destruct (list_eq_dec string_dec a a); congruence. Qed.

Lemma qvalue_eq_refl_value (a : qvalue) : qvalue_eq a a = Some true.
Proof.
  unfold qvalue_eq. now rewrite String.eqb_refl, strset_eqb_refl.
Qed.

(** X9: every q-value matches itself, and the comparison of a q-value with
    itself never raises, even when its value has a component that cannot be
    trimmed and makes [hasWildcard] raise. *)
Theorem qvalue_eq_refl (a : qvalue) :
  qvalue_eq a a = Some true
  /\ (hasWildcard a = None -> forall b, qvalue_eq a b <> Some false).
Proof.
  split; [apply qvalue_eq_refl_value|].
  intros W b. unfold qvalue_eq.
  destruct ((value a =? value b) && strset_eqb (attributes a) (attributes b));
    [discriminate|].
  rewrite W. discriminate.
Qed.

Lemma qvalue_eq_refl_witness :
  hasWildcard (mkQvalue "a/ /b" [] [] 1000) = None
  /\ qvalue_eq (mkQvalue "a/ /b" [] [] 1000) (mkQvalue "a/ /b" [] [] 1000)
     = Some true
  /\ (forall b, qvalue_eq (mkQvalue "a/ /b" [] [] 1000) b <> Some false).
Proof.
  assert (H : hasWildcard (mkQvalue "a/ /b" [] [] 1000) = None) by reflexivity.
  split; [exact H|]. split.
  - exact (proj1 (qvalue_eq_refl (mkQvalue "a/ /b" [] [] 1000))).
  - exact (proj2 (qvalue_eq_refl (mkQvalue "a/ /b" [] [] 1000)) H).
Defined.

(** X10: two q-values that both have a wildcard, or both have none, match
    exactly when their values and their attributes are identical. *)
Theorem qvalue_eq_same_wildcard (a b : qvalue) (w : bool) :
  hasWildcard a = Some w -> hasWildcard b = Some w ->
  qvalue_eq a b
  = Some ((value a =? value b) && strset_eqb (attributes a) (attributes b)).
Proof.
  intros Ha Hb. unfold qvalue_eq. rewrite Ha, Hb.
  destruct ((value a =? value b) && strset_eqb (attributes a) (attributes b));
    [reflexivity|].
  now rewrite Bool.eqb_reflx.
Qed.

Lemma qvalue_eq_same_wildcard_witness :
  (hasWildcard (mkQvalue "text/*" [] [] 1000) = Some true
   /\ hasWildcard (mkQvalue "*/*" [] [] 1000) = Some true)
  /\ qvalue_eq (mkQvalue "text/*" [] [] 1000) (mkQvalue "*/*" [] [] 1000)
     = Some (("text/*" =? "*/*") && strset_eqb [] []).
Proof.
  assert (H1 : hasWildcard (mkQvalue "text/*" [] [] 1000) = Some true)
    by reflexivity.
  assert (H2 : hasWildcard (mkQvalue "*/*" [] [] 1000) = Some true)
    by reflexivity.
  split; [exact (conj H1 H2)|].
  exact (qvalue_eq_same_wildcard _ _ true H1 H2).
Defined.

(** X11: the value [*/*] matches, in either order, every q-value whose value
    has two components neither of which is the wildcard; the attributes of
    both sides are ignored. *)
Theorem qvalue_eq_any_type (a b : qvalue) (x y : string) :
  value a = "*/*" ->
  split (value b) "/" = Some [x; y] -> x <> "*" -> y <> "*" ->
  qvalue_eq a b = Some true /\ qvalue_eq b a = Some true.
Proof.
  intros Ha Hb Hx Hy.
  apply String.eqb_neq in Hx, Hy.
  assert (Hx' : ("*" =? x) = false) by (now rewrite String.eqb_sym).
  assert (Hy' : ("*" =? y) = false) by (now rewrite String.eqb_sym).
  assert (Hs : split (value a) "/" = Some ["*"; "*"]) by (now rewrite Ha).
  unfold qvalue_eq, hasWildcard. rewrite Hs, Hb.
  cbn [existsb List.length Nat.eqb components_match negb andb orb].
  change ("*" =? "*") with true. rewrite Hx, Hy, Hx', Hy'.
  cbn [negb andb orb Bool.eqb].
  split.
  - now destruct ((value a =? value b)
                  && strset_eqb (attributes a) (attributes b)).
  - now destruct ((value b =? value a)
                  && strset_eqb (attributes b) (attributes a)).
Qed.

Lemma qvalue_eq_any_type_witness :
  (value (mkQvalue "*/*" [] [] 1000) = "*/*"
   /\ split (value (mkQvalue "text/html" ["level=1"] [] 500)) "/"
      = Some ["text"; "html"]
   /\ "text" <> "*" /\ "html" <> "*")
  /\ qvalue_eq (mkQvalue "*/*" [] [] 1000) (mkQvalue "text/html" ["level=1"] [] 500)
     = Some true
  /\ qvalue_eq (mkQvalue "text/html" ["level=1"] [] 500) (mkQvalue "*/*" [] [] 1000)
     = Some true.
Proof.
  assert (H1 : value (mkQvalue "*/*" [] [] 1000) = "*/*") by reflexivity.
  assert (H2 : split (value (mkQvalue "text/html" ["level=1"] [] 500)) "/"
               = Some ["text"; "html"]) by reflexivity.
  assert (H3 : "text" <> "*") by discriminate.
  assert (H4 : "html" <> "*") by discriminate.
  split; [exact (conj H1 (conj H2 (conj H3 H4)))|].
  exact (qvalue_eq_any_type _ _ "text" "html" H1 H2 H3 H4).
Defined.

(** ** The ordering, where it is sound *)

Lemma qvalue_lt_quality_witness :
  (q (mkQvalue "a" [] [] 300) < q (mkQvalue "b/ /c" [] [] 700)
   -> qvalue_lt (mkQvalue "a" [] [] 300) (mkQvalue "b/ /c" [] [] 700) = Some true)
  /\ (q (mkQvalue "a" [] [] 300) < q (mkQvalue "b/ /c" [] [] 700)
      -> qvalue_lt (mkQvalue "b/ /c" [] [] 700) (mkQvalue "a" [] [] 300) = Some false)
  /\ q (mkQvalue "a" [] [] 300) < q (mkQvalue "b/ /c" [] [] 700).
Proof.
  split; [|split].
  - exact (proj1 (qvalue_lt_quality (mkQvalue "a" [] [] 300)
                    (mkQvalue "b/ /c" [] [] 700))).
  - exact (proj2 (qvalue_lt_quality (mkQvalue "b/ /c" [] [] 700)
                    (mkQvalue "a" [] [] 300))).
  - cbn. lia.
Defined.

Lemma compare_refl (s : string) : String.compare s s = Eq.
Proof.
  induction s as [|c s IH]; simpl; [reflexivity|].
  unfold Ascii.compare. now rewrite N.compare_refl.
Qed.

Lemma compare_lt_trans (a : string) :
  forall b c,
    String.compare a b = Lt -> String.compare b c = Lt -> String.compare a c = Lt.
Proof.
  induction a as [|x a IH]; intros [|y b] [|z c]; simpl; try congruence.
  unfold Ascii.compare.
  destruct (N.compare_spec (N_of_ascii x) (N_of_ascii y)) as [Exy|Lxy|Gxy];
    try discriminate;
    destruct (N.compare_spec (N_of_ascii y) (N_of_ascii z)) as [Eyz|Lyz|Gyz];
    try discriminate; intros Hab Hbc.
  - rewrite Exy, Eyz, N.compare_refl. eauto.
  - rewrite (proj2 (N.compare_lt_iff _ _)) by lia. reflexivity.
  - rewrite (proj2 (N.compare_lt_iff _ _)) by lia. reflexivity.
  - rewrite (proj2 (N.compare_lt_iff _ _)) by lia. reflexivity.
Qed.

Lemma ltb_irrefl (s : string) : (s <? s) = false.
Proof. unfold String.ltb. now rewrite compare_refl. Qed.

Lemma ltb_asym (a b : string) : (a <? b) = true -> (b <? a) = false.
Proof.
  unfold String.ltb. rewrite (String.compare_antisym b a).
  destruct (String.compare a b); simpl; congruence.
Qed.

Lemma ltb_trans (a b c : string) :
  (a <? b) = true -> (b <? c) = true -> (a <? c) = true.
Proof.
  rewrite !ltb_of_compare. apply compare_lt_trans.
Qed.

Lemma subtags_less_irrefl (l : list string) : subtags_less l l = false.
Proof.
  induction l as [|a l IH]; simpl; [reflexivity|].
  now rewrite String.eqb_refl.
Qed.

Lemma subtags_less_asym (l : list string) :
  forall l', subtags_less l l' = true -> subtags_less l' l = false.
Proof.
  induction l as [|a l IH]; intros [|b l']; simpl; try congruence.
  rewrite (String.eqb_sym b a).
  destruct (a =? b); simpl; [apply IH | apply ltb_asym].
Qed.

Lemma subtags_less_trans (l1 : list string) :
  forall l2 l3,
    subtags_less l1 l2 = true -> subtags_less l2 l3 = true ->
    subtags_less l1 l3 = true.
Proof.
  induction l1 as [|a l1 IH]; intros [|b l2] [|c l3]; simpl; try congruence.
  destruct (String.eqb_spec a b) as [->|Hab]; simpl.
  - destruct (b =? c); simpl; [apply IH | auto].
  - destruct (String.eqb_spec b c) as [->|Hbc]; simpl.
    + intros H _. apply String.eqb_neq in Hab. now rewrite Hab.
    + intros H1 H2. pose proof (ltb_trans a b c H1 H2) as H.
      destruct (String.eqb_spec a c) as [->|_]; simpl; [|exact H].
      rewrite (ltb_asym _ _ H1) in H2. discriminate.
Qed.

(** X13: a q-value is less than itself exactly when its value is of the form
    [type/*] with a type other than the wildcard; on every other value
    whose comparison does not raise, [operator<] is irreflexive. *)
Theorem qvalue_lt_self (a : qvalue) :
  qvalue_lt a a = Some true
  <-> exists x, split (value a) "/" = Some [x; "*"] /\ x <> "*".
Proof.
  unfold qvalue_lt.
  rewrite Z.ltb_irrefl, String.eqb_refl, Nat.ltb_irrefl. cbn [andb].
  destruct (split (value a) "/") as [sa|].
  - rewrite Nat.eqb_refl. cbn [negb].
    destruct sa as [|a0 [|a1 [|a2 sa]]].
    + rewrite ltb_irrefl. split; [discriminate | intros (x & H & _); discriminate].
    + destruct (split (value a) "-") as [ta|].
      * rewrite subtags_less_irrefl.
        split; [discriminate | intros (x & H & _); discriminate].
      * split; [discriminate | intros (x & H & _); discriminate].
    + destruct (String.eqb_spec a0 "*") as [->|Ha0].
      * simpl. split; [discriminate|].
        intros (x & H & Hx). inversion H. congruence.
      * rewrite String.eqb_refl. split.
        -- intros H. inversion H as [H1]. apply String.eqb_eq in H1. subst a1.
           exists a0. split; [reflexivity | exact Ha0].
        -- intros (x & H & Hx). inversion H. reflexivity.
    + rewrite ltb_irrefl. split; [discriminate | intros (x & H & _); discriminate].
  - split; [discriminate | intros (x & H & _); discriminate].
Qed.

Lemma qvalue_lt_self_witness :
  (exists x, split (value (mkQvalue "image/*" [] [] 500)) "/" = Some [x; "*"]
             /\ x <> "*")
  /\ qvalue_lt (mkQvalue "image/*" [] [] 500) (mkQvalue "image/*" [] [] 500)
     = Some true.
Proof.
  assert (H : exists x,
             split (value (mkQvalue "image/*" [] [] 500)) "/" = Some [x; "*"]
             /\ x <> "*")
    by (exists "image"; split; [reflexivity | discriminate]).
  split; [exact H|].
  exact (proj2 (qvalue_lt_self (mkQvalue "image/*" [] [] 500)) H).
Defined.

Lemma qvalue_lt_tags (a b : qvalue) (ta tb : list string) :
  tag_shaped a ta -> tag_shaped b tb ->
  qvalue_lt a b
  = Some (if (q a <? q b)%Z then true
          else if (q b <? q a)%Z then false
          else if (value a =? value b)
                  && (List.length (attributes a) <? List.length (attributes b))%nat
          then true
          else subtags_less ta tb).
Proof.
  intros [[x Hx] Ha] [[y Hy] Hb]. unfold qvalue_lt.
  destruct (q a <? q b)%Z; [reflexivity|].
  destruct (q b <? q a)%Z; [reflexivity|].
  destruct ((value a =? value b)
            && (List.length (attributes a) <? List.length (attributes b))%nat);
    [reflexivity|].
  now rewrite Hx, Hy, Ha, Hb.
Qed.

(** X14: on q-values shaped like language tags (a single component at [/],
    sub-tags that can be split at [-]) [operator<] is a strict order: it is
    irreflexive, asymmetric and transitive, and never raises. *)
Theorem qvalue_lt_tags_strict (a b c : qvalue) (ta tb tc : list string) :
  tag_shaped a ta -> tag_shaped b tb -> tag_shaped c tc ->
  qvalue_lt a a = Some false
  /\ (qvalue_lt a b = Some true -> qvalue_lt b a = Some false)
  /\ (qvalue_lt a b = Some true -> qvalue_lt b c = Some true ->
      qvalue_lt a c = Some true).
Proof.
  intros Ha Hb Hc.
  assert (Hsame : forall u v tu tv,
             tag_shaped u tu -> tag_shaped v tv -> value u = value v -> tu = tv).
  { intros u v tu tv [_ Hu] [_ Hv] E. rewrite E in Hu. congruence. }
  rewrite (qvalue_lt_tags a a ta ta Ha Ha), (qvalue_lt_tags a b ta tb Ha Hb),
    (qvalue_lt_tags b a tb ta Hb Ha), (qvalue_lt_tags b c tb tc Hb Hc),
    (qvalue_lt_tags a c ta tc Ha Hc).
  rewrite Z.ltb_irrefl, Nat.ltb_irrefl, andb_false_r, subtags_less_irrefl.
  split; [reflexivity|].
  rewrite (String.eqb_sym (value b) (value a)).
  split.
  - intros H. inversion H as [H']. clear H. f_equal. revert H'.
    destruct (Z.ltb_spec (q a) (q b)) as [Q1|Q1],
      (Z.ltb_spec (q b) (q a)) as [Q2|Q2]; try lia; try congruence.
    destruct (String.eqb_spec (value a) (value b)) as [Eab|Nab]; cbn [andb];
      [|apply subtags_less_asym].
    rewrite (Hsame a b ta tb Ha Hb Eab), subtags_less_irrefl.
    destruct (Nat.ltb_spec (List.length (attributes a))
                (List.length (attributes b))) as [A1|A1],
      (Nat.ltb_spec (List.length (attributes b))
         (List.length (attributes a))) as [A2|A2]; try lia; congruence.
  - intros H1 H2. inversion H1 as [H1']. inversion H2 as [H2'].
    clear H1 H2. f_equal. revert H1' H2'.
    destruct (Z.ltb_spec (q a) (q b)) as [Q1|Q1],
      (Z.ltb_spec (q b) (q a)) as [Q2|Q2],
      (Z.ltb_spec (q b) (q c)) as [Q3|Q3],
      (Z.ltb_spec (q c) (q b)) as [Q4|Q4],
      (Z.ltb_spec (q a) (q c)) as [Q5|Q5],
      (Z.ltb_spec (q c) (q a)) as [Q6|Q6]; try lia; try congruence.
    destruct (String.eqb_spec (value a) (value b)) as [Eab|Nab];
      destruct (String.eqb_spec (value b) (value c)) as [Ebc|Nbc];
      destruct (String.eqb_spec (value a) (value c)) as [Eac|Nac];
      try congruence; cbn [andb];
      try (rewrite (Hsame a b ta tb Ha Hb Eab) in * );
      try (rewrite (Hsame b c tb tc Hb Hc Ebc) in * );
      try (rewrite (Hsame a c ta tc Ha Hc Eac) in * );
      rewrite ?subtags_less_irrefl;
      destruct (Nat.ltb_spec (List.length (attributes a))
                  (List.length (attributes b))) as [A1|A1];
      destruct (Nat.ltb_spec (List.length (attributes b))
                  (List.length (attributes c))) as [A3|A3];
      destruct (Nat.ltb_spec (List.length (attributes a))
                  (List.length (attributes c))) as [A4|A4];
      try lia; try congruence; intros R1 R2;
      try reflexivity; try assumption;
      try (rewrite (subtags_less_asym _ _ R1) in R2; discriminate);
      try (rewrite (subtags_less_asym _ _ R2) in R1; discriminate);
      eauto using subtags_less_trans.
Qed.

Lemma qvalue_lt_tags_strict_witness :
  (tag_shaped (mkQvalue "en" [] [] 1000) ["en"]
   /\ tag_shaped (mkQvalue "en-US" [] [] 1000) ["en"; "US"]
   /\ tag_shaped (mkQvalue "fr" [] [] 1000) ["fr"])
  /\ qvalue_lt (mkQvalue "en" [] [] 1000) (mkQvalue "en" [] [] 1000) = Some false
  /\ (qvalue_lt (mkQvalue "en" [] [] 1000) (mkQvalue "en-US" [] [] 1000) = Some true
      -> qvalue_lt (mkQvalue "en-US" [] [] 1000) (mkQvalue "en" [] [] 1000)
         = Some false)
  /\ (qvalue_lt (mkQvalue "en" [] [] 1000) (mkQvalue "en-US" [] [] 1000) = Some true
      -> qvalue_lt (mkQvalue "en-US" [] [] 1000) (mkQvalue "fr" [] [] 1000)
         = Some true
      -> qvalue_lt (mkQvalue "en" [] [] 1000) (mkQvalue "fr" [] [] 1000)
         = Some true).
Proof.
  assert (H1 : tag_shaped (mkQvalue "en" [] [] 1000) ["en"])
    by (split; [exists "en"|]; reflexivity).
  assert (H2 : tag_shaped (mkQvalue "en-US" [] [] 1000) ["en"; "US"])
    by (split; [exists "en-US"|]; reflexivity).
  assert (H3 : tag_shaped (mkQvalue "fr" [] [] 1000) ["fr"])
    by (split; [exists "fr"|]; reflexivity).
  split; [exact (conj H1 (conj H2 H3))|].
  exact (qvalue_lt_tags_strict _ _ _ _ _ _ H1 H2 H3).
Defined.

Example qvalue_lt_tags_chain :
  qvalue_lt (mkQvalue "en" [] [] 1000) (mkQvalue "en-US" [] [] 1000) = Some true
  /\ qvalue_lt (mkQvalue "en-US" [] [] 1000) (mkQvalue "fr" [] [] 1000) = Some true.
Proof. split; reflexivity. Qed.

(** ** Negotiation, in general *)


Lemma foldM_unchanged {A B : Type} (f : B -> A -> option B) (l : list A) (b : B) :
  (forall a, In a l -> f b a = Some b) -> foldM f l b = Some b.
Proof.
  induction l as [|a l IH]; intros H; simpl; [reflexivity|].
  rewrite (H a (or_introl eq_refl)). apply IH. intros a' Ha'. apply H. now right.
Qed.











(** X17: when no client value matches any server value, the result of
    [negotiate] is the empty string. *)
Theorem negotiate_no_match (theirs mine : list qvalue) :
  theirs <> [] -> mine <> [] ->
  (forall a b, In a theirs -> In b mine -> qvalue_eq a b = Some false) ->
  negotiate theirs mine = Some "".
Proof.
  intros Ht Hm Hne. unfold negotiate.
  destruct mine as [|b0 mine]; [congruence|].
  destruct theirs as [|a0 theirs]; [congruence|].
  assert (E : intersect (a0 :: theirs) (b0 :: mine) = Some []).
  { unfold intersect. apply foldM_unchanged. intros a Ha.
    apply foldM_unchanged. intros b Hb. unfold intersect_pair.
    now rewrite (Hne a b Ha Hb). }
  rewrite E. reflexivity.
Qed.

Lemma negotiate_no_match_witness :
  ([mkQvalue "en-US" [] [] 1000] <> [] /\ [mkQvalue "en" [] [] 1000] <> []
   /\ (forall a b, In a [mkQvalue "en-US" [] [] 1000] ->
                   In b [mkQvalue "en" [] [] 1000] ->
                   qvalue_eq a b = Some false))
  /\ negotiate [mkQvalue "en-US" [] [] 1000] [mkQvalue "en" [] [] 1000] = Some "".
Proof.
  assert (H1 : [mkQvalue "en-US" [] [] 1000] <> []) by discriminate.
  assert (H2 : [mkQvalue "en" [] [] 1000] <> []) by discriminate.
  assert (H3 : forall a b, In a [mkQvalue "en-US" [] [] 1000] ->
                           In b [mkQvalue "en" [] [] 1000] ->
                           qvalue_eq a b = Some false).
  { intros a b [<-|[]] [<-|[]]. reflexivity. }
  split; [exact (conj H1 (conj H2 H3))|].
  exact (negotiate_no_match _ _ H1 H2 H3).
Defined.

Lemma qvalue_string_with_q (v : qvalue) (n : Z) :
  qvalue_string (with_q v n) = qvalue_string v.
Proof. reflexivity. Qed.

(** X18: when the client set and the server set both consist of the one
    value [v], [negotiate] returns the recombined string of [v], whether
    [v] has a wildcard or not, as long as [hasWildcard] does not raise on
    it. *)
Theorem negotiate_identical (v : qvalue) (w : bool) :
  hasWildcard v = Some w ->
  negotiate [v] [v] = Some (qvalue_string v).
Proof.
  intros W. unfold negotiate, intersect. cbn [foldM]. unfold intersect_pair.
  rewrite qvalue_eq_refl_value. rewrite W.
  destruct w; cbn [qvset_insert rev app]; now rewrite qvalue_string_with_q.
Qed.

Lemma negotiate_identical_witness :
  hasWildcard (mkQvalue "text/*" ["level=1"] [] 700) = Some true
  /\ negotiate [mkQvalue "text/*" ["level=1"] [] 700]
               [mkQvalue "text/*" ["level=1"] [] 700]
     = Some (qvalue_string (mkQvalue "text/*" ["level=1"] [] 700)).
Proof.
  assert (H : hasWildcard (mkQvalue "text/*" ["level=1"] [] 700) = Some true)
    by reflexivity.
  split; [exact H|]. exact (negotiate_identical _ true H).
Defined.

Lemma first_without_wildcard_app (l1 l2 : list qvalue) :
  Forall (fun u => hasWildcard u = Some true) l1 ->
  first_without_wildcard (l1 ++ l2)%list = first_without_wildcard l2.
Proof.
  induction l1 as [|u l1 IH]; intros H; [reflexivity|].
  inversion H; subst. cbn [app first_without_wildcard].
  rewrite H2. cbn [negb]. now apply IH.
Qed.

(** X19: with no client values, [negotiate] returns the last server value,
    in the order of the set, that has no wildcard; the values before it are
    not examined.  If every server value has a wildcard the result is the
    empty string. *)
Theorem negotiate_without_client_values (mine l1 l2 : list qvalue)
    (v : qvalue) :
  (mine = (l1 ++ v :: l2)%list ->
   hasWildcard v = Some false ->
   Forall (fun u => hasWildcard u = Some true) l2 ->
   negotiate [] mine = Some (qvalue_string v))
  /\ (Forall (fun u => hasWildcard u = Some true) mine ->
      negotiate [] mine = Some "").
Proof.
  split.
  - intros -> W Hl2. unfold negotiate.
    destruct (l1 ++ v :: l2)%list as [|b m] eqn:E;
      [destruct l1; discriminate|]. rewrite <- E.
    rewrite rev_app_distr. cbn [rev]. rewrite <- app_assoc.
    rewrite first_without_wildcard_app.
    + cbn [app first_without_wildcard]. now rewrite W.
    + apply Forall_forall. intros u Hu. apply in_rev in Hu.
      eapply Forall_forall in Hl2; eauto.
  - intros H. unfold negotiate. destruct mine as [|b m]; [reflexivity|].
    rewrite <- (app_nil_r (rev (b :: m))).
    rewrite first_without_wildcard_app; [reflexivity|].
    apply Forall_forall. intros u Hu. apply in_rev in Hu.
    eapply Forall_forall in H; eauto.
Qed.

Lemma negotiate_without_client_values_witness :
  ([mkQvalue "a/ /b" [] [] 100; mkQvalue "text/html" [] [] 500;
    mkQvalue "*/*" [] [] 1000]
   = ([mkQvalue "a/ /b" [] [] 100] ++ mkQvalue "text/html" [] [] 500
      :: [mkQvalue "*/*" [] [] 1000])%list
   /\ hasWildcard (mkQvalue "text/html" [] [] 500) = Some false
   /\ Forall (fun u => hasWildcard u = Some true) [mkQvalue "*/*" [] [] 1000])
  /\ negotiate [] [mkQvalue "a/ /b" [] [] 100; mkQvalue "text/html" [] [] 500;
                   mkQvalue "*/*" [] [] 1000]
     = Some (qvalue_string (mkQvalue "text/html" [] [] 500))
  /\ (Forall (fun u => hasWildcard u = Some true) [mkQvalue "*/*" [] [] 1000]
      -> negotiate [] [mkQvalue "*/*" [] [] 1000] = Some "").
Proof.
  assert (H1 : [mkQvalue "a/ /b" [] [] 100; mkQvalue "text/html" [] [] 500;
                mkQvalue "*/*" [] [] 1000]
               = ([mkQvalue "a/ /b" [] [] 100] ++ mkQvalue "text/html" [] [] 500
                  :: [mkQvalue "*/*" [] [] 1000])%list) by reflexivity.
  assert (H2 : hasWildcard (mkQvalue "text/html" [] [] 500) = Some false)
    by reflexivity.
  assert (H3 : Forall (fun u => hasWildcard u = Some true)
                 [mkQvalue "*/*" [] [] 1000])
    by (constructor; [reflexivity | constructor]).
  split; [exact (conj H1 (conj H2 H3))|]. split.
  - exact (proj1 (negotiate_without_client_values _ _ _ _) H1 H2 H3).
  - exact (proj2 (negotiate_without_client_values
                    [mkQvalue "*/*" [] [] 1000] [] []
                    (mkQvalue "*/*" [] [] 1000))).
Defined.

(** ** Status lines, in general *)

Lemma statusLine_rejected_witness :
  regex_match "HTTP/2 200 OK" stat = None
  /\ statusLine_of_string "HTTP/2 200 OK" = statusLine_default
  /\ code (statusLine_of_string "HTTP/2 200 OK") = 0
  /\ valid (statusLine_of_string "HTTP/2 200 OK") = false
  /\ statusLine_string (statusLine_of_string "HTTP/2 200 OK")
     = "HTTP/1.1 500 Bad Status Line" ++ CRLF.
Proof.
  assert (H : regex_match "HTTP/2 200 OK" stat = None) by reflexivity.
  split; [exact H|]. exact (statusLine_rejected "HTTP/2 200 OK" H).
Defined.

(** X21: a status line that is not valid formats to the canned line, and
    the canned line parses as a valid status line with code 500: formatting
    and parsing again turns every invalid status line into a valid one. *)
Theorem statusLine_invalid_format_parse (l : statusLine) :
  valid l = false ->
  statusLine_of_string (statusLine_string l)
  = mkStatusLine 500 "HTTP/1.1" "Bad Status Line"
  /\ valid (statusLine_of_string (statusLine_string l)) = true.
Proof.
  intros H. unfold statusLine_string. rewrite H. split; reflexivity.
Qed.

Lemma statusLine_invalid_format_parse_witness :
  valid (mkStatusLine 99 "HTTP/1.1" "Odd") = false
  /\ statusLine_of_string (statusLine_string (mkStatusLine 99 "HTTP/1.1" "Odd"))
     = mkStatusLine 500 "HTTP/1.1" "Bad Status Line"
  /\ valid (statusLine_of_string
              (statusLine_string (mkStatusLine 99 "HTTP/1.1" "Odd"))) = true.
Proof.
  assert (H : valid (mkStatusLine 99 "HTTP/1.1" "Odd") = false) by reflexivity.
  split; [exact H|]. exact (statusLine_invalid_format_parse _ H).
Defined.

Section ManyGreedy.

Context {A : Type} (p : ascii -> bool) (k : string -> option A).

(** The longest repetition is tried first: when the continuation succeeds
    after it, that is the result. *)
Lemma many_greedy (s1 s2 : string) :
  forall lo r,
    (lo <= String.length s1)%nat ->
    string_forallb p s1 = true ->
    match s2 with String c _ => p c = false | "" => True end ->
    k s2 = Some r ->
    many p lo None k (s1 ++ s2) = Some r.
Proof.
  induction s1 as [|c s1 IH]; intros lo r Hlo Hp Hs2 Hk.
  - simpl in Hlo. replace lo with O by lia.
    pose proof (many_exact p k "" s2 None eq_refl Hs2) as M.
    cbn [append String.length] in M |- *. rewrite M. exact Hk.
  - simpl in Hp. apply andb_prop in Hp. destruct Hp as [Hc Hp].
    cbn [many append]. rewrite Hc. cbn [hi_allows andb dec_hi].
    rewrite (IH (Nat.pred lo) r); auto. simpl in Hlo. lia.
Qed.

(** A successful repetition splits the input into the characters it took
    and the rest, on which the continuation succeeded. *)
Lemma many_sound_split (s : string) :
  forall lo hi r,
    many p lo hi k s = Some r ->
    exists s1 s2,
      s = s1 ++ s2 /\ string_forallb p s1 = true
      /\ (lo <= String.length s1)%nat
      /\ match hi with Some h => (String.length s1 <= h)%nat | None => True end
      /\ k s2 = Some r.
Proof.
  induction s as [|c s IH]; intros lo hi r H; cbn [many] in H.
  - destruct lo; [|discriminate]. exists "", "".
    repeat split; auto. destruct hi; [simpl; lia | exact I].
  - assert (Hstop : match lo with O => k (String c s) | S _ => None end = Some r ->
                    exists s1 s2,
                      String c s = s1 ++ s2 /\ string_forallb p s1 = true
                      /\ (lo <= String.length s1)%nat
                      /\ match hi with
                         | Some h => (String.length s1 <= h)%nat
                         | None => True
                         end
                      /\ k s2 = Some r).
    { destruct lo; [|discriminate]. intros Hk. exists "", (String c s).
      repeat split; auto. destruct hi; [simpl; lia | exact I]. }
    destruct (p c && hi_allows hi) eqn:E; [|auto].
    apply andb_prop in E. destruct E as [Hc Hhi].
    destruct (many p (Nat.pred lo) (dec_hi hi) k s) as [r'|] eqn:M; [|auto].
    inversion H; subst r'.
    destruct (IH _ _ _ M) as (s1 & s2 & -> & Hp & Hlo & Hh & Hk).
    exists (String c s1), s2. cbn [append string_forallb String.length].
    rewrite Hc, Hp. repeat split; auto; [lia|].
    destruct hi as [[|h]|]; simpl in *; try discriminate; auto. lia.
Qed.

End ManyGreedy.

Lemma stat_parses_wire (c v d1 d2 d3 : ascii) (text : string) :
  dot c = true -> in01 v = true ->
  isdigit d1 = true -> isdigit d2 = true -> isdigit d3 = true ->
  string_forallb dot text = true ->
  find_if_not_space text = 0%nat ->
  regex_match
    ("HTTP/1" ++ String c (String v (String " "
       (String d1 (String d2 (String d3 (String " " (text ++ CRLF))))))))
    stat
  = Some [(3%nat, text); (2%nat, String d1 (String d2 (String d3 "")));
          (1%nat, "HTTP/1" ++ String c (String v ""))].
Proof.
  intros Hc Hv H1 H2 H3 Htext Hlead.
  unfold regex_match, stat.
  cbn -[Nat.sub String.length substring many].
  rewrite Hc, Hv.
  set (rest3 := String " " (text ++ CRLF)).
  set (rest1 := String " " (String d1 (String d2 (String d3 rest3)))).
  pose proof (substring_prefix ("HTTP/1" ++ String c (String v "")) rest1) as G1.
  cbn [append] in G1. rewrite G1. clear G1.
  pose proof (fun k => many_exact (A:=smatch) isspace k " "
                         (String d1 (String d2 (String d3 rest3))) None
                         eq_refl (isdigit_not_space d1 H1)) as M1.
  cbn [append String.length] in M1. fold rest1 in M1. rewrite M1. clear M1.
  assert (Hd : string_forallb isdigit (String d1 (String d2 (String d3 ""))) = true)
    by (simpl; now rewrite H1, H2, H3).
  pose proof (fun k => many_exact (A:=smatch) isdigit k
                         (String d1 (String d2 (String d3 ""))) rest3
                         (Some 3%nat) Hd eq_refl) as M2.
  cbn [append String.length] in M2. rewrite M2. clear M2.
  pose proof (substring_prefix (String d1 (String d2 (String d3 ""))) rest3) as G2.
  cbn [append] in G2. rewrite G2. clear G2.
  subst rest3. destruct text as [|a text].
  - reflexivity.
  - assert (Ha : isspace a = false).
    { simpl in Hlead. destruct (isspace a); [discriminate | reflexivity]. }
    pose proof (fun k => many_exact (A:=smatch) isspace k " "
                           (String a text ++ CRLF) None eq_refl Ha) as M3.
    cbn [append String.length] in M3 |- *. rewrite M3. clear M3.
    pose proof (substring_prefix (String a text) CRLF) as G3.
    cbn [append] in G3.
    apply (many_greedy dot _ (String a text) CRLF 0%nat); [lia | exact Htext | reflexivity |].
    cbn [append]. rewrite G3. reflexivity.
Qed.

(** X22: formatting a status line and parsing the result gives the same
    status line back, description included, whenever its code is between
    100 and 599, its protocol is [HTTP/1] followed by one character other
    than CR and LF and by [0] or [1], and its description is a single line
    that does not start with whitespace. *)
Theorem statusLine_format_parse (l : statusLine) (c v : ascii) :
  100 <= code l < 600 ->
  protocol l = "HTTP/1" ++ String c (String v "") ->
  dot c = true -> in01 v = true ->
  string_forallb dot (description l) = true ->
  find_if_not_space (description l) = 0%nat ->
  statusLine_of_string (statusLine_string l) = l.
Proof.
  destruct l as [cd pr ds]. cbn [code protocol description].
  intros Hcd -> Hc Hv Hds Hlead.
  unfold statusLine_string, valid. cbn [code protocol description].
  rewrite (proj2 (Z.leb_le 100 cd)), (proj2 (Z.ltb_lt cd 600)) by lia.
  cbn [andb negb].
  destruct (decimal_three_digits cd Hcd)
    as (d1 & d2 & d3 & Hdec & H1 & H2 & H3 & Hstoi).
  pose proof (stat_parses_wire c v d1 d2 d3 ds Hc Hv H1 H2 H3 Hds Hlead) as Hm.
  unfold statusLine_of_string. rewrite Hdec in *. cbn [append] in Hm |- *.
  rewrite Hm. cbn [sub Nat.eqb].
  destruct (stoi (String d1 (String d2 (String d3 "")))) as [n|];
    [|discriminate].
  inversion Hstoi. reflexivity.
Qed.

Lemma statusLine_format_parse_witness :
  (100 <= code (mkStatusLine 404 "HTTP/1.0" "Not Found") < 600
   /\ protocol (mkStatusLine 404 "HTTP/1.0" "Not Found")
      = "HTTP/1" ++ String "." (String "0" "")
   /\ dot "." = true /\ in01 "0" = true
   /\ string_forallb dot (description (mkStatusLine 404 "HTTP/1.0" "Not Found")) = true
   /\ find_if_not_space (description (mkStatusLine 404 "HTTP/1.0" "Not Found")) = 0%nat)
  /\ statusLine_of_string (statusLine_string (mkStatusLine 404 "HTTP/1.0" "Not Found"))
     = mkStatusLine 404 "HTTP/1.0" "Not Found".
Proof.
  assert (H1 : 100 <= code (mkStatusLine 404 "HTTP/1.0" "Not Found") < 600)
    by (cbn; lia).
  assert (H2 : protocol (mkStatusLine 404 "HTTP/1.0" "Not Found")
               = "HTTP/1" ++ String "." (String "0" "")) by reflexivity.
  assert (H3 : dot "." = true) by reflexivity.
  assert (H4 : in01 "0" = true) by reflexivity.
  assert (H5 : string_forallb dot
                 (description (mkStatusLine 404 "HTTP/1.0" "Not Found")) = true)
    by reflexivity.
  assert (H6 : find_if_not_space
                 (description (mkStatusLine 404 "HTTP/1.0" "Not Found")) = 0%nat)
    by reflexivity.
  split; [exact (conj H1 (conj H2 (conj H3 (conj H4 (conj H5 H6)))))|].
  exact (statusLine_format_parse _ "." "0" H1 H2 H3 H4 H5 H6).
Defined.

(** A description that starts with whitespace loses it on the way. *)
Example statusLine_leading_space_lost :
  statusLine_of_string (statusLine_string (mkStatusLine 200 "HTTP/1.1" " OK"))
  = mkStatusLine 200 "HTTP/1.1" "OK".
Proof. reflexivity. Qed.

Lemma substring_prefix_app (w r : string) :
  substring 0 (String.length (w ++ r) - String.length r) (w ++ r) = w.
Proof. apply substring_prefix. Qed.

Lemma lit_matches (c h : ascii) : Ascii.eqb c h = true -> h = c.
Proof. intros H. apply Ascii.eqb_eq in H. now subst. Qed.

Lemma three_chars (s : string) :
  (3 <= String.length s)%nat -> (String.length s <= 3)%nat ->
  exists d1 d2 d3, s = String d1 (String d2 (String d3 "")).
Proof.
  destruct s as [|d1 [|d2 [|d3 [|d4 s]]]]; simpl; intros; try lia.
  now exists d1, d2, d3.
Qed.

(** The shape of every line the pattern [stat] accepts, and the sub-matches
    it reports. *)
Lemma stat_sound (line : string) (m : smatch) :
  regex_match line stat = Some m ->
  exists (c v d1 d2 d3 : ascii) (w1 w2 text w3 : string),
    line = "HTTP/1" ++ String c (String v
             (w1 ++ String d1 (String d2 (String d3 (w2 ++ text ++ w3)))))
    /\ dot c = true /\ in01 v = true
    /\ w1 <> "" /\ string_forallb isspace w1 = true
    /\ isdigit d1 = true /\ isdigit d2 = true /\ isdigit d3 = true
    /\ w2 <> "" /\ string_forallb isspace w2 = true
    /\ string_forallb dot text = true
    /\ string_forallb isspace w3 = true
    /\ m = [(3%nat, text); (2%nat, String d1 (String d2 (String d3 "")));
            (1%nat, "HTTP/1" ++ String c (String v ""))].
Proof.
  unfold regex_match, stat. intros H.
  cbn -[Nat.sub String.length substring many Ascii.eqb dot in01] in H.
  destruct line as [|h1 line]; [discriminate|]. cbv iota in H.
  destruct (Ascii.eqb "H" h1) eqn:E1; [|discriminate]. apply lit_matches in E1.
  destruct line as [|h2 line]; [discriminate|]. cbv iota in H.
  destruct (Ascii.eqb "T" h2) eqn:E2; [|discriminate]. apply lit_matches in E2.
  destruct line as [|h3 line]; [discriminate|]. cbv iota in H.
  destruct (Ascii.eqb "T" h3) eqn:E3; [|discriminate]. apply lit_matches in E3.
  destruct line as [|h4 line]; [discriminate|]. cbv iota in H.
  destruct (Ascii.eqb "P" h4) eqn:E4; [|discriminate]. apply lit_matches in E4.
  destruct line as [|h5 line]; [discriminate|]. cbv iota in H.
  destruct (Ascii.eqb "/" h5) eqn:E5; [|discriminate]. apply lit_matches in E5.
  destruct line as [|h6 line]; [discriminate|]. cbv iota in H.
  destruct (Ascii.eqb "1" h6) eqn:E6; [|discriminate]. apply lit_matches in E6.
  destruct line as [|c line]; [discriminate|]. cbv iota in H.
  destruct (dot c) eqn:Hc; [|discriminate].
  destruct line as [|v line]; [discriminate|]. cbv iota in H.
  destruct (in01 v) eqn:Hv; [|discriminate].
  subst h1 h2 h3 h4 h5 h6.
  pose proof (substring_prefix ("HTTP/1" ++ String c (String v "")) line) as G1.
  cbn [append] in G1. rewrite G1 in H. clear G1.
  apply many_sound_split in H.
  destruct H as (w1 & r1 & -> & Hw1 & Lw1 & _ & H).
  apply many_sound_split in H.
  destruct H as (ds & r2 & -> & Hds & Lds & Uds & H).
  destruct (three_chars ds Lds Uds) as (d1 & d2 & d3 & ->).
  rewrite (substring_prefix (String d1 (String d2 (String d3 ""))) r2) in H.
  apply many_sound_split in H.
  destruct H as (w2 & r3 & -> & Hw2 & Lw2 & _ & H).
  apply many_sound_split in H.
  destruct H as (text & r4 & -> & Htext & _ & _ & H).
  rewrite (substring_prefix text r4) in H.
  apply many_sound_split in H.
  destruct H as (w3 & r5 & -> & Hw3 & _ & _ & H).
  destruct r5; [|discriminate]. inversion H; subst m.
  simpl in Hds. apply andb_prop in Hds. destruct Hds as [H1 Hds].
  apply andb_prop in Hds. destruct Hds as [H2 Hds].
  apply andb_prop in Hds. destruct Hds as [H3 _].
  exists c, v, d1, d2, d3, w1, w2, text, w3.
  assert (Hw3' : w3 ++ "" = w3).
  { clear. induction w3 as [|a w IH]; simpl; [reflexivity | now rewrite IH]. }
  rewrite Hw3'.
  repeat split; auto.
  - destruct w1; [simpl in Lw1; lia | discriminate].
  - destruct w2; [simpl in Lw2; lia | discriminate].
Qed.

Lemma isdigit_cases (d : ascii) :
  isdigit d = true ->
  In d ["0"; "1"; "2"; "3"; "4"; "5"; "6"; "7"; "8"; "9"]%char.
Proof.
  destruct d as [[] [] [] [] [] [] [] []]; intros H;
    try (vm_compute in H; discriminate); simpl; tauto.
Qed.

Lemma stoi_three_digits (d1 d2 d3 : ascii) :
  isdigit d1 = true -> isdigit d2 = true -> isdigit d3 = true ->
  stoi (String d1 (String d2 (String d3 "")))
  = Some (100 * digit_value d1 + 10 * digit_value d2 + digit_value d3)
  /\ 0 <= 100 * digit_value d1 + 10 * digit_value d2 + digit_value d3 <= 999.
Proof.
  intros H1 H2 H3.
  apply isdigit_cases in H1. apply isdigit_cases in H2. apply isdigit_cases in H3.
  simpl in H1, H2, H3.
  repeat (destruct H1 as [<-|H1]); try contradiction;
    repeat (destruct H2 as [<-|H2]); try contradiction;
    repeat (destruct H3 as [<-|H3]); try contradiction;
    (split; [vm_compute; reflexivity | vm_compute; split; discriminate]).
Qed.

(** X23: what the parsing constructor can produce.  A line is either
    rejected, and leaves the default status line, or it consists of
    [HTTP/1], one character other than CR and LF, [0] or [1], whitespace,
    three digits, whitespace, a description without CR or LF and optional
    whitespace; then the protocol is its first eight characters, the
    description is that text, and the code is the number the three digits
    spell, between 0 and 999: the fallback to 500 of the constructor is
    never taken. *)
Theorem statusLine_of_string_shape (line : string) :
  (regex_match line stat = None
   /\ statusLine_of_string line = statusLine_default)
  \/ exists (c v d1 d2 d3 : ascii) (w1 w2 text w3 : string),
      line = "HTTP/1" ++ String c (String v
               (w1 ++ String d1 (String d2 (String d3 (w2 ++ text ++ w3)))))
      /\ dot c = true /\ in01 v = true
      /\ w1 <> "" /\ string_forallb isspace w1 = true
      /\ isdigit d1 = true /\ isdigit d2 = true /\ isdigit d3 = true
      /\ w2 <> "" /\ string_forallb isspace w2 = true
      /\ string_forallb dot text = true
      /\ string_forallb isspace w3 = true
      /\ statusLine_of_string line
         = mkStatusLine (100 * digit_value d1 + 10 * digit_value d2 + digit_value d3)
                        ("HTTP/1" ++ String c (String v "")) text
      /\ 0 <= code (statusLine_of_string line) <= 999.
Proof.
  unfold statusLine_of_string.
  destruct (regex_match line stat) as [m|] eqn:E; [right | now left].
  destruct (stat_sound line m E)
    as (c & v & d1 & d2 & d3 & w1 & w2 & text & w3 & Hl & Hc & Hv & N1 & W1
        & D1 & D2 & D3 & N2 & W2 & T & W3 & ->).
  exists c, v, d1, d2, d3, w1, w2, text, w3.
  destruct (stoi_three_digits d1 d2 d3 D1 D2 D3) as [Hs Hr].
  cbn [sub Nat.eqb]. rewrite Hs. unfold to_unsigned.
  rewrite Z.mod_small by lia. cbn [code].
  repeat split; auto; lia.
Qed.

Example statusLine_accepted_but_invalid :
  statusLine_of_string "HTTP/1.1 099 Low" = mkStatusLine 99 "HTTP/1.1" "Low"
  /\ valid (statusLine_of_string "HTTP/1.1 099 Low") = false.
Proof. split; reflexivity. Qed.
